(** * The WebSocket fan-out layer of [registerRoutes]

    A shallow embedding of the real-time part of the server's route
    registration: the process-wide [clients] map, the ['message'] handler
    with its [switch (message.type)], and the ['close'] handler.

    The handlers are written as state-passing functions
    [Clients -> Clients * list Effect]: the first component is the [clients]
    map after the handler returned, the second the transport writes and
    console lines it performed, in program order.

    Further parts follow the same style: the message range of the
    generate-notes route, the source aggregation of [queryOrgMemory] with
    the formatting of the org-memory route, and the event handlers of the
    client components [MessageInput] and [AiModal]. *)

From Stdlib Require Import List ZArith String Bool Arith Lia OrderedTypeEx.
Import ListNotations.
Local Open Scope string_scope.
Local Open Scope list_scope.

(** ** Values coming out of [JSON.parse] *)

(** A parsed JSON text.  Numbers are the integers the wire protocol uses for
    its ids ([-0] is identified with [0], as both SameValueZero and
    [JSON.stringify] do).  An object is kept as its member list in source
    order; a repeated key is resolved by [member]. *)
#[warnings="-register-all"]
Inductive json : Type :=
| JNull
| JBool (b : bool)
| JNum (n : Z)
| JStr (s : string)
| JArr (items : list json)
| JObj (members : list (string * json)).

(** A JavaScript value as the handler sees it: [None] is [undefined]. *)
Definition value : Type := option json.

(** The binding [JSON.parse] keeps for key [k]: the last one in the text. *)
Fixpoint member (k : string) (ms : list (string * json)) : value :=
  match ms with
  | [] => None
  | (k', v) :: rest =>
      match member k rest with
      | Some w => Some w
      | None => if String.eqb k' k then Some v else None
      end
  end.

(** [message.k] for a non-null [message].  None of the property names the
    handler reads ([type], [userId], [channelId], [data], [isTyping]) exists
    on the prototype of a boolean, number, string or array, so the access
    yields [undefined] there.  ([null.k] throws; [tryBody] treats it.) *)
Definition prop (message : json) (k : string) : value :=
  match message with
  | JObj ms => member k ms
  | _ => None
  end.

(** [v === 'lit']: strict equality with a string literal, as the [switch]
    uses it on its case labels. *)
Definition strictEqStr (v : value) (lit : string) : bool :=
  match v with
  | Some (JStr s) => String.eqb s lit
  | _ => false
  end.

(** SameValueZero, the comparison of [Set.prototype.has/add/delete].
    Primitives compare by value.  An array or object is compared by
    reference; every frame is parsed into fresh objects and each frame
    performs at most one set operation, so two such operands never are the
    same reference. *)
Definition sameValueZero (a b : value) : bool :=
  match a, b with
  | None, None => true
  | Some JNull, Some JNull => true
  | Some (JBool x), Some (JBool y) => Bool.eqb x y
  | Some (JNum x), Some (JNum y) => Z.eqb x y
  | Some (JStr x), Some (JStr y) => String.eqb x y
  | _, _ => false
  end.

(** The values SameValueZero compares by value. *)
Definition primitive (v : value) : bool :=
  match v with
  | Some (JArr _) | Some (JObj _) => false
  | _ => true
  end.

(** ** [Set<number>]: the [channels] of one client *)

Module JsSet.

(** Elements in insertion order. *)
Definition t : Type := list value.

Definition empty : t := [].

Definition has (x : value) (s : t) : bool := existsb (sameValueZero x) s.

Definition add (x : value) (s : t) : t :=
  if has x s then s else s ++ [x].

(** [delete] removes the element equal to [x], if there is one. *)
Fixpoint delete (x : value) (s : t) : t :=
  match s with
  | [] => []
  | y :: rest => if sameValueZero x y then rest else y :: delete x rest
  end.

(** No two elements of a set are SameValueZero-equal. *)
Fixpoint wf (s : t) : bool :=
  match s with
  | [] => true
  | y :: rest => negb (has y rest) && wf rest
  end.

End JsSet.

(** ** [Map<WebSocket, {userId, channels}>]: the [clients] registry *)

(** A [WebSocket] object, known by its identity. *)
Definition WebSocket : Type := nat.

Record ClientInfo : Type := mkClientInfo {
  userId : value;
  channels : JsSet.t
}.

Module JsMap.

(** Entries in insertion order, which is the order [forEach] visits. *)
Definition t : Type := list (WebSocket * ClientInfo).

Definition empty : t := [].

Fixpoint get (k : WebSocket) (m : t) : option ClientInfo :=
  match m with
  | [] => None
  | (k', v) :: rest => if Nat.eqb k' k then Some v else get k rest
  end.

(** [set] replaces the value of an existing key where it stands and
    appends a new key. *)
Fixpoint set (k : WebSocket) (v : ClientInfo) (m : t) : t :=
  match m with
  | [] => [(k, v)]
  | (k', v') :: rest =>
      if Nat.eqb k' k then (k, v) :: rest else (k', v') :: set k v rest
  end.

Fixpoint delete (k : WebSocket) (m : t) : t :=
  match m with
  | [] => []
  | (k', v') :: rest =>
      if Nat.eqb k' k then rest else (k', v') :: delete k rest
  end.

(** [m.forEach((value, key) => ...)] for a callback that only performs
    effects and leaves [m] alone. *)
Definition forEach {E : Type} (cb : ClientInfo -> WebSocket -> list E)
    (m : t) : list E :=
  flat_map (fun entry => cb (snd entry) (fst entry)) m.

Definition keys (m : t) : list WebSocket := List.map fst m.

End JsMap.

Definition Clients : Type := JsMap.t.

(** ** Transports, frames and effects *)

Inductive ReadyState : Type := CONNECTING | OPEN | CLOSING | CLOSED.

(** [clientWs.readyState === WebSocket.OPEN] *)
Definition isOpen (r : ReadyState) : bool :=
  match r with
  | OPEN => true
  | _ => false
  end.

(** The object handed to [JSON.stringify] before [send].  A field holding
    [undefined] is left out of the text by [JSON.stringify]. *)
Inductive Frame : Type :=
| NewMessageFrame (message : value)
| TypingFrame (user channel isTyping : value).

Inductive Exn : Type := SyntaxError | TypeError.

Inductive Effect : Type :=
| Send (to : WebSocket) (frame : Frame)
| ConsoleLog (text : string)
| ConsoleError (text : string) (e : Exn).

(** What [JSON.parse(data.toString())] did with the raw frame. *)
Inductive ParseResult : Type :=
| ParseFails
| Parsed (message : json).

Inductive Completion (A : Type) : Type :=
| Normal (a : A)
| Throw (e : Exn).
Arguments Normal {A} a.
Arguments Throw {A} e.

(** ** The handlers *)

Section Handlers.

(** The sockets' [readyState] at the time the handler runs. *)
Variable readyState : WebSocket -> ReadyState.
(** The socket the handler is installed on. *)
Variable ws : WebSocket.

(** The body of the [try] block of [ws.on('message', ...)]. *)
Definition tryBody (data : ParseResult) (clients : Clients)
    : Completion (Clients * list Effect) :=
  match data with
  | ParseFails => Throw SyntaxError
  | Parsed JNull => Throw TypeError
  | Parsed message =>
      let type := prop message "type" in
      if strictEqStr type "auth" then
        Normal (JsMap.set ws
                  {| userId := prop message "userId";
                     channels := JsSet.empty |} clients, [])
      else if strictEqStr type "join_channel" then
        match JsMap.get ws clients with
        | Some clientData =>
            (* clientData is the object the map holds: the mutation
               replaces the entry's value where it stands *)
            Normal (JsMap.set ws
                      {| userId := userId clientData;
                         channels :=
                           JsSet.add (prop message "channelId")
                                     (channels clientData) |} clients, [])
        | None => Normal (clients, [])
        end
      else if strictEqStr type "leave_channel" then
        match JsMap.get ws clients with
        | Some client =>
            Normal (JsMap.set ws
                      {| userId := userId client;
                         channels :=
                           JsSet.delete (prop message "channelId")
                                        (channels client) |} clients, [])
        | None => Normal (clients, [])
        end
      else if strictEqStr type "new_message" then
        Normal (clients,
          JsMap.forEach (fun clientInfo clientWs =>
            if negb (Nat.eqb clientWs ws)
               && JsSet.has (prop message "channelId") (channels clientInfo)
               && isOpen (readyState clientWs)
            then [Send clientWs (NewMessageFrame (prop message "data"))]
            else []) clients)
      else if strictEqStr type "typing" then
        Normal (clients,
          JsMap.forEach (fun clientInfo clientWs =>
            if negb (Nat.eqb clientWs ws)
               && JsSet.has (prop message "channelId") (channels clientInfo)
               && isOpen (readyState clientWs)
            then [Send clientWs
                    (TypingFrame (prop message "userId")
                                 (prop message "channelId")
                                 (prop message "isTyping"))]
            else []) clients)
      else Normal (clients, [])
  end.

(** [ws.on('message', (data) => { try { ... } catch (error) { ... } })] *)
Definition onMessage (data : ParseResult) (clients : Clients)
    : Clients * list Effect :=
  match tryBody data clients with
  | Normal r => r
  | Throw e => (clients, [ConsoleError "WebSocket message error:" e])
  end.

End Handlers.

(** [ws.on('close', ...)] *)
Definition onClose (ws : WebSocket) (clients : Clients)
    : Clients * list Effect :=
  (JsMap.delete ws clients, [ConsoleLog "WebSocket connection closed"]).

(** [wss.on('connection', (ws) => ...)]: the map is not touched. *)
Definition onConnection (ws : WebSocket) (clients : Clients)
    : Clients * list Effect :=
  (clients, [ConsoleLog "New WebSocket connection"]).

(** ** The server as a transition system *)

(** What the transport layer delivers to the server.  A ['message'] event
    comes with the ready states the sockets have while its handler runs. *)
Inductive Event : Type :=
| Connection (ws : WebSocket)
| Message (ws : WebSocket) (readyState : WebSocket -> ReadyState)
          (data : ParseResult)
| Close (ws : WebSocket).

Definition origin (ev : Event) : WebSocket :=
  match ev with
  | Connection ws => ws
  | Message ws _ _ => ws
  | Close ws => ws
  end.

Definition step (ev : Event) (clients : Clients) : Clients * list Effect :=
  match ev with
  | Connection ws => onConnection ws clients
  | Message ws readyState data => onMessage readyState ws data clients
  | Close ws => onClose ws clients
  end.

(** Handlers run to completion one after the other. *)
Fixpoint run (evs : list Event) (clients : Clients) : Clients * list Effect :=
  match evs with
  | [] => (clients, [])
  | ev :: rest =>
      let (clients1, out1) := step ev clients in
      let (clients2, out2) := run rest clients1 in
      (clients2, out1 ++ out2)
  end.

(** ** Observations *)

(** [ws] is in the registry and its set has [channelId]: the test the
    fan-out loops make on each entry. *)
Definition subscribed (clients : Clients) (ws : WebSocket)
    (channelId : value) : bool :=
  match JsMap.get ws clients with
  | Some info => JsSet.has channelId (channels info)
  | None => false
  end.

(** The frames written to [ws], in order. *)
Fixpoint deliveries (ws : WebSocket) (out : list Effect) : list Frame :=
  match out with
  | [] => []
  | Send to frame :: rest =>
      if Nat.eqb to ws then frame :: deliveries ws rest
      else deliveries ws rest
  | _ :: rest => deliveries ws rest
  end.

(** The sockets written to, in order. *)
Fixpoint recipients (out : list Effect) : list WebSocket :=
  match out with
  | [] => []
  | Send to _ :: rest => to :: recipients rest
  | _ :: rest => recipients rest
  end.

(** The registry is a Map whose values hold Sets: keys are unique and so are
    the elements of every [channels]. *)
Definition wf (clients : Clients) : Prop :=
  NoDup (JsMap.keys clients) /\
  Forall (fun entry => JsSet.wf (channels (snd entry)) = true) clients.

(** The frame a fan-out case builds from the request. *)
Definition newMessageFrame (message : json) : Frame :=
  NewMessageFrame (prop message "data").

Definition typingFrame (message : json) : Frame :=
  TypingFrame (prop message "userId") (prop message "channelId")
              (prop message "isTyping").

(** One pass of a fan-out loop: both [forEach] callbacks of the handler
    have this shape and differ in the frame only. *)
Definition fanout (readyState : WebSocket -> ReadyState) (ws : WebSocket)
    (channelId : value) (frame : Frame) (clients : Clients) : list Effect :=
  JsMap.forEach (fun clientInfo clientWs =>
    if negb (Nat.eqb clientWs ws)
       && JsSet.has channelId (channels clientInfo)
       && isOpen (readyState clientWs)
    then [Send clientWs frame]
    else []) clients.

(** A frame the [switch] has no case for. *)
Definition unknownType (message : json) : bool :=
  negb (strictEqStr (prop message "type") "auth"
        || strictEqStr (prop message "type") "join_channel"
        || strictEqStr (prop message "type") "leave_channel"
        || strictEqStr (prop message "type") "new_message"
        || strictEqStr (prop message "type") "typing").

(** A frame that does not decode: [JSON.parse] throws on it, it parses to
    [null], or it carries no known [type]. *)
Definition undecodable (data : ParseResult) : bool :=
  match data with
  | ParseFails => true
  | Parsed JNull => true
  | Parsed message => unknownType message
  end.

(** An ['auth'] frame from [ws]. *)
Definition authFrom (ws : WebSocket) (ev : Event) : bool :=
  match ev with
  | Message ws' _ (Parsed message) =>
      Nat.eqb ws' ws && strictEqStr (prop message "type") "auth"
  | _ => false
  end.

(** The frame a request is fanned out as, for the two request types that
    are fanned out. *)
Definition broadcastFrame (message : json) : option Frame :=
  if strictEqStr (prop message "type") "new_message"
  then Some (newMessageFrame message)
  else if strictEqStr (prop message "type") "typing"
  then Some (typingFrame message)
  else None.

(** A [join_channel] frame from [ws] whose [channelId] is SameValueZero
    to [channelId]. *)
Definition joinFrom (ws : WebSocket) (channelId : value) (ev : Event) : bool :=
  match ev with
  | Message ws' _ (Parsed message) =>
      Nat.eqb ws' ws
      && strictEqStr (prop message "type") "join_channel"
      && sameValueZero channelId (prop message "channelId")
  | _ => false
  end.

(** ** Frames and registries used in the examples *)

Definition allOpen : WebSocket -> ReadyState := fun _ => OPEN.

Definition authMsg (u : Z) : json :=
  JObj [("type", JStr "auth"); ("userId", JNum u)].

Definition joinMsg (x : Z) : json :=
  JObj [("type", JStr "join_channel"); ("channelId", JNum x)].

Definition leaveMsg (x : Z) : json :=
  JObj [("type", JStr "leave_channel"); ("channelId", JNum x)].

Definition newMessageMsg (x : Z) (d : json) : json :=
  JObj [("type", JStr "new_message"); ("channelId", JNum x); ("data", d)].

Definition typingMsg (x u : Z) (b : bool) : json :=
  JObj [("type", JStr "typing"); ("channelId", JNum x);
        ("userId", JNum u); ("isTyping", JBool b)].

Definition hi : json := JObj [("content", JStr "hi")].

(** Sockets 1, 2 and 3 identify as users 1, 2 and 3 and join channel 10. *)
Definition threeJoined : list Event :=
  [ Connection 1; Connection 2; Connection 3;
    Message 1 allOpen (Parsed (authMsg 1));
    Message 2 allOpen (Parsed (authMsg 2));
    Message 3 allOpen (Parsed (authMsg 3));
    Message 1 allOpen (Parsed (joinMsg 10));
    Message 2 allOpen (Parsed (joinMsg 10));
    Message 3 allOpen (Parsed (joinMsg 10)) ].

Definition threeClients : Clients := fst (run threeJoined JsMap.empty).

(** Socket 1 alone has joined channel 10; socket 2 has identified only. *)
Definition oneJoined : Clients :=
  fst (run [ Message 1 allOpen (Parsed (authMsg 1));
             Message 2 allOpen (Parsed (authMsg 2));
             Message 1 allOpen (Parsed (joinMsg 10)) ] JsMap.empty).

(** ** The message range of [POST /api/ai/generate-notes] *)

(** Truthiness, as [&&], [||], [!] and [if] test it: [undefined], [null],
    [false], [0] and the empty string are falsy, every other value (arrays
    and objects included) is truthy. *)
Definition truthy (v : value) : bool :=
  match v with
  | None => false
  | Some JNull => false
  | Some (JBool b) => b
  | Some (JNum n) => negb (Z.eqb n 0)
  | Some (JStr s) => negb (String.eqb s "")
  | Some (JArr _) => true
  | Some (JObj _) => true
  end.

(** [n === v] for a number [n]: [v] has to be that number. *)
Definition strictEqNum (n : Z) (v : value) : bool :=
  match v with
  | Some (JNum m) => Z.eqb n m
  | _ => false
  end.

(** [arr.findIndex(pred)]: the index of the first element passing [pred],
    [-1] if there is none. *)
Fixpoint findIndex {A : Type} (pred : A -> bool) (arr : list A) : Z :=
  match arr with
  | [] => -1
  | x :: rest =>
      if pred x then 0
      else let i := findIndex pred rest in
           if Z.eqb i (-1) then -1 else i + 1
  end.

(** [arr.slice(start, end)] for integer arguments: a negative argument
    counts from the end, both are clamped to the array, and an empty range
    gives the empty array. *)
Definition slice {A : Type} (arr : list A) (start stop : Z) : list A :=
  let len := Z.of_nat (List.length arr) in
  let k := if Z.ltb start 0 then Z.max (len + start) 0 else Z.min start len in
  let final := if Z.ltb stop 0 then Z.max (len + stop) 0 else Z.min stop len in
  firstn (Z.to_nat (final - k)) (skipn (Z.to_nat k) arr).

Section GenerateNotes.

(** A row of [storage.getChannelMessages] and its numeric key [m.id]. *)
Variable Message : Type.
Variable id : Message -> Z.

(** The messages handed to the notes generator: [startMessageId] and
    [endMessageId] are read from the request body. *)
Definition filteredMessages (messages : list Message)
    (startMessageId endMessageId : value) : list Message :=
  if truthy startMessageId && truthy endMessageId then
    let startIndex :=
      findIndex (fun m => strictEqNum (id m) startMessageId) messages in
    let endIndex :=
      findIndex (fun m => strictEqNum (id m) endMessageId) messages in
    if negb (Z.eqb startIndex (-1)) && negb (Z.eqb endIndex (-1)) then
      slice messages startIndex (endIndex + 1)
    else messages
  else messages.

End GenerateNotes.

(** ** [queryOrgMemory] and the route [POST /api/ai/org-memory] *)

(** [v || d]: the value [v] if it is truthy, otherwise [d]. *)
Definition orElse (v : value) (d : json) : json :=
  match v with
  | Some j => if truthy v then j else d
  | None => d
  end.

Module OrgMemory.

(** An element of [relevantMessages]. *)
Record RelevantMessage : Type := mkRelevantMessage {
  content : string;
  channelName : string;
  authorName : string;
  timestamp : string
}.

(** The object [sourceChannels] holds for a channel name. *)
Record SourceData : Type := mkSourceData {
  count : nat;
  lastUpdate : string
}.

(** [sourceChannels], a [Map] with string keys, in insertion order. *)
Definition SourceMap : Type := list (string * SourceData).

Fixpoint get (k : string) (m : SourceMap) : option SourceData :=
  match m with
  | [] => None
  | (k', v) :: rest => if String.eqb k' k then Some v else get k rest
  end.

Definition has (k : string) (m : SourceMap) : bool :=
  match get k m with
  | Some _ => true
  | None => false
  end.

Fixpoint set (k : string) (v : SourceData) (m : SourceMap) : SourceMap :=
  match m with
  | [] => [(k, v)]
  | (k', v') :: rest =>
      if String.eqb k' k then (k, v) :: rest else (k', v') :: set k v rest
  end.

(** [a > b] on two strings: code unit by code unit. *)
Definition gt (a b : string) : bool := String.ltb b a.

(** The callback of [relevantMessages.forEach].  Each
    [sourceChannels.get(...)] is followed by a property access, which
    throws a TypeError on [undefined]: [None].  An assignment through the
    object [get] returned replaces the entry's value where it stands. *)
Definition visit (sourceChannels : SourceMap) (msg : RelevantMessage)
    : option SourceMap :=
  let sc1 :=
    if negb (has (channelName msg) sourceChannels)
    then set (channelName msg)
             {| count := 0; lastUpdate := timestamp msg |} sourceChannels
    else sourceChannels in
  match get (channelName msg) sc1 with
  | None => None
  | Some d1 =>
      let sc2 :=
        set (channelName msg)
            {| count := S (count d1); lastUpdate := lastUpdate d1 |} sc1 in
      match get (channelName msg) sc2 with
      | None => None
      | Some d2 =>
          if gt (timestamp msg) (lastUpdate d2) then
            match get (channelName msg) sc2 with
            | None => None
            | Some d3 =>
                Some (set (channelName msg)
                          {| count := count d3;
                             lastUpdate := timestamp msg |} sc2)
            end
          else Some sc2
      end
  end.

Fixpoint forEach (msgs : list RelevantMessage) (sourceChannels : SourceMap)
    : option SourceMap :=
  match msgs with
  | [] => Some sourceChannels
  | msg :: rest =>
      match visit sourceChannels msg with
      | Some sc => forEach rest sc
      | None => None
      end
  end.

(** An element of [sources]. *)
Record Source : Type := mkSource {
  sourceName : string;
  messageCount : nat;
  sourceLastUpdate : string
}.

Definition toSource (entry : string * SourceData) : Source :=
  {| sourceName := fst entry;
     messageCount := count (snd entry);
     sourceLastUpdate := lastUpdate (snd entry) |}.

Record Answer : Type := mkAnswer {
  query : string;
  summary : json;
  sources : list Source;
  keyPoints : json
}.

(** What the [try] block binds [result] to: [Rejected] when the completion
    request rejects, the reply has no first choice, or its content is not
    JSON text. *)
Inductive Reply : Type :=
| Rejected
| Result (result : json).

Definition failed (q : string) : Answer :=
  {| query := q;
     summary := JStr "Error occurred while processing your query.";
     sources := [];
     keyPoints := JArr [] |}.

Definition queryOrgMemory (q : string)
    (relevantMessages : list RelevantMessage) (reply : Reply) : Answer :=
  match reply with
  | Rejected => failed q
  | Result result =>
      match forEach relevantMessages [] with
      | None => failed q
      | Some sourceChannels =>
          match result with
          | JNull => failed q
          | _ =>
              {| query := q;
                 summary := orElse (prop result "summary")
                              (JStr "No relevant information found.");
                 sources := List.map toSource sourceChannels;
                 keyPoints := orElse (prop result "keyPoints") (JArr []) |}
          end
      end
  end.

(** The callback once more, by cases on whether the channel has an entry;
    [visit_step] shows it is what [visit] computes. *)
Definition step (sc : SourceMap) (msg : RelevantMessage) : SourceMap :=
  match get (channelName msg) sc with
  | None =>
      set (channelName msg) {| count := 1; lastUpdate := timestamp msg |} sc
  | Some d =>
      set (channelName msg)
          {| count := S (count d);
             lastUpdate := if gt (timestamp msg) (lastUpdate d)
                           then timestamp msg else lastUpdate d |} sc
  end.

(** The messages of one channel. *)
Definition inChannel (name : string) (msgs : list RelevantMessage)
    : list RelevantMessage :=
  filter (fun m => String.eqb (channelName m) name) msgs.

Section Route.

(** A row of [storage.searchMessages]: its content, the name of its channel
    if it has one, its author's display name and
    [createdAt.toISOString()]. *)
Variable StoredMessage : Type.
Variable msgContent : StoredMessage -> string.
Variable msgChannel : StoredMessage -> option string.
Variable authorDisplayName : StoredMessage -> string.
Variable createdAtISO : StoredMessage -> string.

(** [msg.channel?.name || "Direct Message"] *)
Definition channelNameOf (msg : StoredMessage) : string :=
  match msgChannel msg with
  | Some name => if String.eqb name "" then "Direct Message" else name
  | None => "Direct Message"
  end.

Definition formattedMessages (relevant : list StoredMessage)
    : list RelevantMessage :=
  List.map (fun msg =>
    {| content := msgContent msg;
       channelName := channelNameOf msg;
       authorName := authorDisplayName msg;
       timestamp := createdAtISO msg |}) relevant.

End Route.

End OrgMemory.

(** Three messages, two of them in channel general. *)
Definition threeMessages : list OrgMemory.RelevantMessage :=
  [ OrgMemory.mkRelevantMessage "a" "general" "Alice" "2024-01-02T10:00:00.000Z";
    OrgMemory.mkRelevantMessage "b" "dev" "Bob" "2024-01-01T09:00:00.000Z";
    OrgMemory.mkRelevantMessage "c" "general" "Bob" "2024-01-03T08:30:00.000Z" ].

(** ** The client: [MessageInput] and [AiModal] *)

Module Client.

(** A string of the browser: the sequence of its UTF-16 code units. *)
Definition JsString : Type := list N.

(** The code units [String.prototype.trim] strips: WhiteSpace (TAB, VT, FF,
    ZWNBSP and the space separators) and LineTerminator (LF, CR, LS, PS). *)
Definition isWhiteSpace (c : N) : bool :=
  (N.leb 9 c && N.leb c 13)
  || N.eqb c 32 || N.eqb c 160 || N.eqb c 5760
  || (N.leb 8192 c && N.leb c 8202)
  || N.eqb c 8232 || N.eqb c 8233 || N.eqb c 8239 || N.eqb c 8287
  || N.eqb c 12288 || N.eqb c 65279.

Fixpoint trimStart (s : JsString) : JsString :=
  match s with
  | [] => []
  | c :: rest => if isWhiteSpace c then trimStart rest else s
  end.

Definition trimEnd (s : JsString) : JsString := rev (trimStart (rev s)).

Definition trim (s : JsString) : JsString := trimEnd (trimStart s).

(** [s.split('\n')]: the pieces between line feeds; never empty. *)
Fixpoint split (s : JsString) : list JsString :=
  match s with
  | [] => [[]]
  | c :: rest =>
      if N.eqb c 10 then [] :: split rest
      else match split rest with
           | line :: lines => (c :: line) :: lines
           | [] => [[c]]
           end
  end.

(** Truthiness of a [number | null]: [null] and [0] are falsy. *)
Definition numTruthy (n : option Z) : bool :=
  match n with
  | Some z => negb (Z.eqb z 0)
  | None => false
  end.

(** [n || undefined] *)
Definition orUndefined (n : option Z) : option Z :=
  if numTruthy n then n else None.

(** The object [handleSend] passes to the mutation; [parentMessageId] is
    always [null]. *)
Record MessageData : Type := mkMessageData {
  mdContent : JsString;
  mdChannelId : option Z;
  mdRecipientId : option Z
}.

Inductive UiEffect : Type :=
| SetContent (value : JsString)
| SetToneAnalysisNull
| SendTyping (channelId : Z) (isTyping : bool)
| ToneMutate (text : JsString)
| SendMutate (messageData : MessageData)
| PreventDefault
| ReplyMutate (messageContent threadContext : JsString)
| OrgMemoryMutate (queryText : JsString)
| Toast (title : string).

(** *** [MessageInput] *)

(** [handleToneAnalysis] of [MessageInput] *)
Definition handleToneAnalysis (text : JsString) : list UiEffect :=
  if Nat.ltb 10 (List.length (trim text)) then [ToneMutate text]
  else [SetToneAnalysisNull].

(** The two callbacks [handleContentChange] hands to [setTimeout]. *)
Inductive Callback : Type :=
| StopTyping (channelId : Z)
| DebouncedTone (value : JsString).

Record Timer : Type := mkTimer {
  callback : Callback;
  delay : Z
}.

(** [typingTimeoutRef.current] ([None] is [undefined]), the timers of the
    component that are pending, and the id the next [setTimeout] returns. *)
Record Timers : Type := mkTimers {
  typingTimeoutRef : option nat;
  pending : list (nat * Timer);
  nextId : nat
}.

Definition initialTimers : Timers :=
  {| typingTimeoutRef := None; pending := []; nextId := 1 |}.

(** [clearTimeout(typingTimeoutRef.current)] *)
Definition clearTimeout (st : Timers) : Timers :=
  match typingTimeoutRef st with
  | None => st
  | Some i =>
      {| typingTimeoutRef := typingTimeoutRef st;
         pending := filter (fun e => negb (Nat.eqb (fst e) i)) (pending st);
         nextId := nextId st |}
  end.

(** [typingTimeoutRef.current = setTimeout(cb, ms)] *)
Definition setTimeoutRef (cb : Callback) (ms : Z) (st : Timers) : Timers :=
  {| typingTimeoutRef := Some (nextId st);
     pending := pending st ++ [(nextId st, {| callback := cb; delay := ms |})];
     nextId := S (nextId st) |}.

(** [handleContentChange(value)] under the props [channelId] and the
    signed-in [user] (present or [null]). *)
Definition handleContentChange (channelId : option Z) (user : bool)
    (value : JsString) (st : Timers) : Timers * list UiEffect :=
  let '(st1, out1) :=
    match channelId with
    | Some c =>
        if numTruthy channelId && user then
          (setTimeoutRef (StopTyping c) 1000 (clearTimeout st),
           [SendTyping c (Nat.ltb 0 (List.length value))])
        else (st, [])
    | None => (st, [])
    end in
  (setTimeoutRef (DebouncedTone value) 500 (clearTimeout st1),
   SetContent value :: out1).

Definition runCallback (cb : Callback) : list UiEffect :=
  match cb with
  | StopTyping c => [SendTyping c false]
  | DebouncedTone value => handleToneAnalysis value
  end.

Fixpoint findTimer (i : nat) (l : list (nat * Timer)) : option Timer :=
  match l with
  | [] => None
  | (j, t) :: rest => if Nat.eqb j i then Some t else findTimer i rest
  end.

(** The browser runs the pending timer [i], if there is one. *)
Definition fire (i : nat) (st : Timers) : Timers * list UiEffect :=
  match findTimer i (pending st) with
  | Some t =>
      ({| typingTimeoutRef := typingTimeoutRef st;
          pending := filter (fun e => negb (Nat.eqb (fst e) i)) (pending st);
          nextId := nextId st |},
       runCallback (callback t))
  | None => (st, [])
  end.

Inductive UiEvent : Type :=
| Change (channelId : option Z) (user : bool) (value : JsString)
| Fire (timer : nat).

Definition uiStep (ev : UiEvent) (st : Timers) : Timers * list UiEffect :=
  match ev with
  | Change channelId user value => handleContentChange channelId user value st
  | Fire i => fire i st
  end.

Fixpoint uiRun (evs : list UiEvent) (st : Timers) : Timers * list UiEffect :=
  match evs with
  | [] => (st, [])
  | ev :: rest =>
      let (st1, out1) := uiStep ev st in
      let (st2, out2) := uiRun rest st1 in
      (st2, out1 ++ out2)
  end.

(** The input was emptied. *)
Definition emptied (ev : UiEvent) : bool :=
  match ev with
  | Change _ _ [] => true
  | _ => false
  end.

(** [handleSend()] with the state [content], the flag
    [sendMessageMutation.isPending] and the props [channelId] and
    [recipientId]. *)
Definition handleSend (content : JsString) (isPending : bool)
    (channelId recipientId : option Z) : list UiEffect :=
  if match trim content with [] => true | _ => false end || isPending
  then []
  else [SendMutate {| mdContent := trim content;
                      mdChannelId := orUndefined channelId;
                      mdRecipientId := orUndefined recipientId |}].

(** [handleKeyPress(e)]: [isEnter] is [e.key === 'Enter']. *)
Definition handleKeyPress (isEnter shiftKey : bool) (content : JsString)
    (isPending : bool) (channelId recipientId : option Z) : list UiEffect :=
  if isEnter && negb shiftKey
  then PreventDefault :: handleSend content isPending channelId recipientId
  else [].

(** *** [AiModal] *)

Definition blank (s : JsString) : bool :=
  match trim s with
  | [] => true
  | _ => false
  end.

(** [handleToneAnalysis] of [AiModal] *)
Definition modalToneAnalysis (toneText : JsString) : list UiEffect :=
  if blank toneText then [Toast "Input Required"]
  else [ToneMutate toneText].

Definition handleReplyGeneration (replyContext : JsString) : list UiEffect :=
  if blank replyContext then [Toast "Context Required"]
  else
    let lines := split replyContext in
    if Nat.ltb (List.length lines) 1 then [Toast "Invalid Context"]
    else match lines with
         | first :: _ => [ReplyMutate first replyContext]
         | [] => []
         end.

Definition handleOrgMemoryQuery (orgQuery : JsString) : list UiEffect :=
  if blank orgQuery then [Toast "Query Required"]
  else [OrgMemoryMutate orgQuery].

End Client.

(** Every pending timer of [MessageInput] is the one the ref holds and is a
    debounced tone analysis; there is at most one. *)
Definition timersInv (st : Client.Timers) : Prop :=
  (forall i t, In (i, t) (Client.pending st) ->
     Client.typingTimeoutRef st = Some i /\
     exists value,
       t = Client.mkTimer (Client.DebouncedTone value) 500)
  /\ List.length (Client.pending st) <= 1.

(** * Properties *)

(** ** Sets *)

Lemma sameValueZero_eq (a b : value) :
  sameValueZero a b = true -> a = b.
Proof.
  destruct a as [[| x | x | x | x | x]|], b as [[| y | y | y | y | y]|];
    simpl; try discriminate; try reflexivity; intros H.
  - apply Bool.eqb_prop in H. now subst.
  - apply Z.eqb_eq in H. now subst.
  - apply String.eqb_eq in H. now subst.
Qed.

Lemma sameValueZero_refl (a : value) :
  primitive a = true -> sameValueZero a a = true.
Proof.
  destruct a as [[| x | x | x | x | x]|]; simpl; try discriminate; intros _.
  - reflexivity.
  - apply Bool.eqb_reflx.
  - apply Z.eqb_refl.
  - apply String.eqb_refl.
  - reflexivity.
Qed.

Lemma Set_has_app (x : value) (s1 s2 : JsSet.t) :
  JsSet.has x (s1 ++ s2) = JsSet.has x s1 || JsSet.has x s2.
Proof. unfold JsSet.has. apply existsb_app. Qed.

Lemma Set_has_add (x : value) (s : JsSet.t) :
  primitive x = true -> JsSet.has x (JsSet.add x s) = true.
Proof.
  intros Hx. unfold JsSet.add.
  destruct (JsSet.has x s) eqn:E; [exact E|].
  rewrite Set_has_app. simpl. rewrite (sameValueZero_refl x Hx).
  now rewrite orb_true_r.
Qed.


Lemma Set_has_delete_mono (x y : value) (s : JsSet.t) :
  JsSet.has y (JsSet.delete x s) = true -> JsSet.has y s = true.
Proof.
  induction s as [|z rest IH]; simpl; [discriminate|].
  destruct (sameValueZero x z); simpl.
  - intros H. rewrite H. apply orb_true_r.
  - intros H. apply orb_true_iff in H. destruct H as [H|H].
    + now rewrite H.
    + rewrite (IH H). apply orb_true_r.
Qed.

Lemma Set_wf_add (x : value) (s : JsSet.t) :
  JsSet.wf s = true -> JsSet.wf (JsSet.add x s) = true.
Proof.
  unfold JsSet.add. destruct (JsSet.has x s) eqn:E; [trivial|].
  induction s as [|y rest IH]; simpl; intros Hwf; [reflexivity|].
  simpl in E. apply orb_false_iff in E. destruct E as [Exy Erest].
  apply andb_true_iff in Hwf. destruct Hwf as [Hy Hrest].
  apply andb_true_iff. split.
  - rewrite Set_has_app. simpl. apply negb_true_iff in Hy. rewrite Hy. simpl.
    destruct (sameValueZero y x) eqn:Eyx; [|reflexivity].
    pose proof (sameValueZero_eq _ _ Eyx) as Heq. subst y.
    rewrite Eyx in Exy. discriminate.
  - now apply IH.
Qed.

(** ** Maps *)

Lemma Map_get_set_eq (k : WebSocket) (v : ClientInfo) (m : JsMap.t) :
  JsMap.get k (JsMap.set k v m) = Some v.
Proof.
  induction m as [|[k' v'] rest IH]; simpl.
  - now rewrite Nat.eqb_refl.
  - destruct (Nat.eqb k' k) eqn:E; simpl.
    + now rewrite Nat.eqb_refl.
    + now rewrite E.
Qed.

Lemma Map_get_set_neq (k k' : WebSocket) (v : ClientInfo) (m : JsMap.t) :
  k' <> k -> JsMap.get k' (JsMap.set k v m) = JsMap.get k' m.
Proof.
  intros Hne. induction m as [|[k0 v0] rest IH]; simpl.
  - apply Nat.eqb_neq in Hne. rewrite Nat.eqb_sym. now rewrite Hne.
  - destruct (Nat.eqb k0 k) eqn:E; simpl.
    + apply Nat.eqb_eq in E. subst k0.
      assert (Nat.eqb k k' = false) as -> by (apply Nat.eqb_neq; congruence).
      reflexivity.
    + now rewrite IH.
Qed.

Lemma Map_get_None (k : WebSocket) (m : JsMap.t) :
  JsMap.get k m = None <-> ~ In k (JsMap.keys m).
Proof.
  induction m as [|[k' v'] rest IH]; simpl.
  - tauto.
  - destruct (Nat.eqb k' k) eqn:E.
    + apply Nat.eqb_eq in E. split; [discriminate | tauto].
    + apply Nat.eqb_neq in E. rewrite IH. tauto.
Qed.

Lemma Map_get_In (k : WebSocket) (v : ClientInfo) (m : JsMap.t) :
  JsMap.get k m = Some v -> In (k, v) m.
Proof.
  induction m as [|[k' v'] rest IH]; simpl; [discriminate|].
  destruct (Nat.eqb k' k) eqn:E.
  - apply Nat.eqb_eq in E. intros [= ->]. subst. now left.
  - intros H. right. now apply IH.
Qed.

Lemma Map_keys_set (k k' : WebSocket) (v : ClientInfo) (m : JsMap.t) :
  In k' (JsMap.keys (JsMap.set k v m)) <-> k' = k \/ In k' (JsMap.keys m).
Proof.
  induction m as [|[k0 v0] rest IH]; simpl.
  - intuition congruence.
  - destruct (Nat.eqb k0 k) eqn:E; simpl.
    + apply Nat.eqb_eq in E. subst k0. intuition congruence.
    + rewrite IH. intuition congruence.
Qed.

Lemma Map_keys_delete (k k' : WebSocket) (m : JsMap.t) :
  In k' (JsMap.keys (JsMap.delete k m)) -> In k' (JsMap.keys m).
Proof.
  induction m as [|[k0 v0] rest IH]; simpl; [tauto|].
  destruct (Nat.eqb k0 k); simpl; intuition.
Qed.

Lemma Map_NoDup_set (k : WebSocket) (v : ClientInfo) (m : JsMap.t) :
  NoDup (JsMap.keys m) -> NoDup (JsMap.keys (JsMap.set k v m)).
Proof.
  induction m as [|[k0 v0] rest IH]; simpl; intros Hnd.
  - constructor; [simpl; tauto | constructor].
  - inversion Hnd as [|? ? Hnotin Hrest]; subst.
    destruct (Nat.eqb k0 k) eqn:E; simpl.
    + apply Nat.eqb_eq in E. subst k0. now constructor.
    + apply Nat.eqb_neq in E. constructor; [|now apply IH].
      intros Hin. apply Map_keys_set in Hin. destruct Hin; [congruence|].
      contradiction.
Qed.

Lemma Map_NoDup_delete (k : WebSocket) (m : JsMap.t) :
  NoDup (JsMap.keys m) -> NoDup (JsMap.keys (JsMap.delete k m)).
Proof.
  induction m as [|[k0 v0] rest IH]; simpl; intros Hnd; [constructor|].
  inversion Hnd as [|? ? Hnotin Hrest]; subst.
  destruct (Nat.eqb k0 k); simpl; [assumption|].
  constructor; [|now apply IH].
  intros Hin. now apply Map_keys_delete in Hin.
Qed.

Lemma Map_get_delete_eq (k : WebSocket) (m : JsMap.t) :
  NoDup (JsMap.keys m) -> JsMap.get k (JsMap.delete k m) = None.
Proof.
  induction m as [|[k0 v0] rest IH]; simpl; intros Hnd; [reflexivity|].
  inversion Hnd as [|? ? Hnotin Hrest]; subst.
  destruct (Nat.eqb k0 k) eqn:E; simpl.
  - apply Nat.eqb_eq in E. subst k0. now apply Map_get_None.
  - rewrite E. now apply IH.
Qed.

Lemma Map_get_delete_neq (k k' : WebSocket) (m : JsMap.t) :
  k' <> k -> JsMap.get k' (JsMap.delete k m) = JsMap.get k' m.
Proof.
  intros Hne. induction m as [|[k0 v0] rest IH]; simpl; [reflexivity|].
  destruct (Nat.eqb k0 k) eqn:E; simpl.
  - apply Nat.eqb_eq in E. subst k0.
    assert (Nat.eqb k k' = false) as -> by (apply Nat.eqb_neq; congruence).
    reflexivity.
  - now rewrite IH.
Qed.

Lemma Map_Forall_set (P : WebSocket * ClientInfo -> Prop) (k : WebSocket)
    (v : ClientInfo) (m : JsMap.t) :
  P (k, v) -> Forall P m -> Forall P (JsMap.set k v m).
Proof.
  intros Hv. induction m as [|[k0 v0] rest IH]; simpl; intros Hall.
  - now constructor.
  - inversion Hall; subst. destruct (Nat.eqb k0 k); constructor; auto.
Qed.

Lemma Map_Forall_delete (P : WebSocket * ClientInfo -> Prop) (k : WebSocket)
    (m : JsMap.t) :
  Forall P m -> Forall P (JsMap.delete k m).
Proof.
  induction m as [|[k0 v0] rest IH]; simpl; intros Hall; [constructor|].
  inversion Hall; subst. destruct (Nat.eqb k0 k); [assumption|].
  constructor; auto.
Qed.

(** ** The cases of the [switch], one equation each *)

Section Cases.

Variable readyState : WebSocket -> ReadyState.
Variable ws : WebSocket.
Variable message : json.
Variable clients : Clients.

Lemma typed_message_is_object (t : string) :
  prop message "type" = Some (JStr t) -> exists ms, message = JObj ms.
Proof. destruct message; simpl; try discriminate. eauto. Qed.

Lemma onMessage_auth :
  prop message "type" = Some (JStr "auth") ->
  onMessage readyState ws (Parsed message) clients =
  (JsMap.set ws {| userId := prop message "userId";
                   channels := JsSet.empty |} clients, []).
Proof.
  intros Ht. destruct (typed_message_is_object _ Ht) as [ms ->].
  unfold onMessage, tryBody. now rewrite Ht.
Qed.

Lemma onMessage_join_channel :
  prop message "type" = Some (JStr "join_channel") ->
  onMessage readyState ws (Parsed message) clients =
  match JsMap.get ws clients with
  | Some clientData =>
      (JsMap.set ws {| userId := userId clientData;
                       channels := JsSet.add (prop message "channelId")
                                             (channels clientData) |}
                 clients, [])
  | None => (clients, [])
  end.
Proof.
  intros Ht. destruct (typed_message_is_object _ Ht) as [ms ->].
  unfold onMessage, tryBody. rewrite Ht. simpl.
  now destruct (JsMap.get ws clients).
Qed.

Lemma onMessage_leave_channel :
  prop message "type" = Some (JStr "leave_channel") ->
  onMessage readyState ws (Parsed message) clients =
  match JsMap.get ws clients with
  | Some client =>
      (JsMap.set ws {| userId := userId client;
                       channels := JsSet.delete (prop message "channelId")
                                                (channels client) |}
                 clients, [])
  | None => (clients, [])
  end.
Proof.
  intros Ht. destruct (typed_message_is_object _ Ht) as [ms ->].
  unfold onMessage, tryBody. rewrite Ht. simpl.
  now destruct (JsMap.get ws clients).
Qed.

Lemma onMessage_new_message :
  prop message "type" = Some (JStr "new_message") ->
  onMessage readyState ws (Parsed message) clients =
  (clients, fanout readyState ws (prop message "channelId")
                   (newMessageFrame message) clients).
Proof.
  intros Ht. destruct (typed_message_is_object _ Ht) as [ms ->].
  unfold onMessage, tryBody. now rewrite Ht.
Qed.

Lemma onMessage_typing :
  prop message "type" = Some (JStr "typing") ->
  onMessage readyState ws (Parsed message) clients =
  (clients, fanout readyState ws (prop message "channelId")
                   (typingFrame message) clients).
Proof.
  intros Ht. destruct (typed_message_is_object _ Ht) as [ms ->].
  unfold onMessage, tryBody. now rewrite Ht.
Qed.

End Cases.

(** ** The registry invariant *)

Lemma Set_wf_delete (x : value) (s : JsSet.t) :
  JsSet.wf s = true -> JsSet.wf (JsSet.delete x s) = true.
Proof.
  induction s as [|y rest IH]; simpl; intros Hwf; [reflexivity|].
  apply andb_true_iff in Hwf. destruct Hwf as [Hy Hrest].
  destruct (sameValueZero x y); [assumption|].
  simpl. apply andb_true_iff. split; [|now apply IH].
  apply negb_true_iff. apply negb_true_iff in Hy.
  destruct (JsSet.has y (JsSet.delete x rest)) eqn:E; [|reflexivity].
  apply Set_has_delete_mono in E. congruence.
Qed.

Lemma wf_empty : wf JsMap.empty.
Proof. split; constructor. Qed.

Lemma wf_set (k : WebSocket) (v : ClientInfo) (clients : Clients) :
  JsSet.wf (channels v) = true -> wf clients -> wf (JsMap.set k v clients).
Proof.
  intros Hv [Hnd Hall]. split.
  - now apply Map_NoDup_set.
  - now apply Map_Forall_set.
Qed.

Lemma wf_delete (k : WebSocket) (clients : Clients) :
  wf clients -> wf (JsMap.delete k clients).
Proof.
  intros [Hnd Hall]. split.
  - now apply Map_NoDup_delete.
  - now apply Map_Forall_delete.
Qed.

Lemma wf_get (k : WebSocket) (v : ClientInfo) (clients : Clients) :
  wf clients -> JsMap.get k clients = Some v -> JsSet.wf (channels v) = true.
Proof.
  intros [_ Hall] Hget. apply Map_get_In in Hget.
  rewrite Forall_forall in Hall. exact (Hall _ Hget).
Qed.

Lemma onMessage_wf (readyState : WebSocket -> ReadyState) (ws : WebSocket)
    (data : ParseResult) (clients : Clients) :
  wf clients -> wf (fst (onMessage readyState ws data clients)).
Proof.
  intros Hwf. unfold onMessage, tryBody.
  destruct data as [|message]; [exact Hwf|].
  destruct message; simpl; try exact Hwf.
  repeat match goal with
  | |- context [if strictEqStr ?v ?l then _ else _] =>
      destruct (strictEqStr v l)
  end; simpl; try exact Hwf.
  - now apply wf_set.
  - destruct (JsMap.get ws clients) as [info|] eqn:G; simpl; [|exact Hwf].
    apply wf_set; [|exact Hwf]. simpl. apply Set_wf_add.
    exact (wf_get _ _ _ Hwf G).
  - destruct (JsMap.get ws clients) as [info|] eqn:G; simpl; [|exact Hwf].
    apply wf_set; [|exact Hwf]. simpl. apply Set_wf_delete.
    exact (wf_get _ _ _ Hwf G).
Qed.

Lemma step_wf (ev : Event) (clients : Clients) :
  wf clients -> wf (fst (step ev clients)).
Proof.
  intros Hwf. destruct ev as [ws | ws rs data | ws]; simpl.
  - exact Hwf.
  - now apply onMessage_wf.
  - now apply wf_delete.
Qed.

Lemma run_cons (ev : Event) (evs : list Event) (clients : Clients) :
  run (ev :: evs) clients =
  (fst (run evs (fst (step ev clients))),
   snd (step ev clients) ++ snd (run evs (fst (step ev clients)))).
Proof.
  simpl. destruct (step ev clients) as [c1 o1]. simpl.
  now destruct (run evs c1).
Qed.

Lemma run_wf (evs : list Event) (clients : Clients) :
  wf clients -> wf (fst (run evs clients)).
Proof.
  revert clients. induction evs as [|ev rest IH]; intros clients Hwf.
  - exact Hwf.
  - rewrite run_cons. simpl. apply IH. now apply step_wf.
Qed.

(** Every registry the server can reach from its start is well formed. *)
Lemma reachable_wf (evs : list Event) : wf (fst (run evs JsMap.empty)).
Proof. apply run_wf, wf_empty. Qed.

(** ** Fan-out *)

Lemma deliveries_app (c : WebSocket) (o1 o2 : list Effect) :
  deliveries c (o1 ++ o2) = deliveries c o1 ++ deliveries c o2.
Proof.
  induction o1 as [|[to f | t | t e] rest IH]; simpl; try assumption.
  - reflexivity.
  - destruct (Nat.eqb to c); simpl; now rewrite IH.
Qed.

Lemma recipients_app (o1 o2 : list Effect) :
  recipients (o1 ++ o2) = recipients o1 ++ recipients o2.
Proof.
  induction o1 as [|[to f | t | t e] rest IH]; simpl; try assumption.
  - reflexivity.
  - now rewrite IH.
Qed.

Section Fanout.

Variable readyState : WebSocket -> ReadyState.
Variable ws : WebSocket.
Variable channelId : value.
Variable frame : Frame.

Lemma fanout_cons (k : WebSocket) (info : ClientInfo) (rest : Clients) :
  fanout readyState ws channelId frame ((k, info) :: rest) =
  (if negb (Nat.eqb k ws) && JsSet.has channelId (channels info)
      && isOpen (readyState k)
   then [Send k frame] else [])
  ++ fanout readyState ws channelId frame rest.
Proof. reflexivity. Qed.

(** The sockets a pass writes to are keys of the map, other than the
    sender. *)
Lemma fanout_recipients_keys (clients : Clients) (c : WebSocket) :
  In c (recipients (fanout readyState ws channelId frame clients)) ->
  In c (JsMap.keys clients) /\ c <> ws.
Proof.
  induction clients as [|[k info] rest IH]; [simpl; tauto|].
  rewrite fanout_cons, recipients_app, in_app_iff. intros [H|H].
  - destruct (Nat.eqb k ws) eqn:E; simpl in H; [tauto|].
    destruct (JsSet.has channelId (channels info) && isOpen (readyState k));
      simpl in H; [|tauto].
    destruct H as [<-|[]]. apply Nat.eqb_neq in E. simpl. tauto.
  - destruct (IH H). simpl. tauto.
Qed.

Lemma fanout_not_key (clients : Clients) (c : WebSocket) :
  ~ In c (JsMap.keys clients) ->
  deliveries c (fanout readyState ws channelId frame clients) = [].
Proof.
  induction clients as [|[k info] rest IH]; [reflexivity|].
  simpl JsMap.keys. intros Hnotin.
  rewrite fanout_cons, deliveries_app, IH by (simpl in Hnotin; tauto).
  destruct (negb (Nat.eqb k ws) && JsSet.has channelId (channels info)
            && isOpen (readyState k)); [|reflexivity].
  simpl. destruct (Nat.eqb k c) eqn:E; [|reflexivity].
  apply Nat.eqb_eq in E. simpl in Hnotin. tauto.
Qed.

(** What one pass writes to [c]: one frame when [c] is another socket,
    subscribed and open, and nothing otherwise. *)
Lemma deliveries_fanout (clients : Clients) (c : WebSocket) :
  NoDup (JsMap.keys clients) ->
  deliveries c (fanout readyState ws channelId frame clients) =
  if negb (Nat.eqb c ws) && subscribed clients c channelId
     && isOpen (readyState c)
  then [frame] else [].
Proof.
  unfold subscribed.
  induction clients as [|[k info] rest IH]; intros Hnd.
  - simpl. now rewrite andb_false_r.
  - inversion Hnd as [|? ? Hnotin Hrest]; subst.
    rewrite fanout_cons, deliveries_app. simpl JsMap.get.
    destruct (Nat.eqb k c) eqn:E.
    + apply Nat.eqb_eq in E. subst k.
      rewrite (fanout_not_key rest c Hnotin), app_nil_r.
      destruct (negb (Nat.eqb c ws) && JsSet.has channelId (channels info)
                && isOpen (readyState c)); [|reflexivity].
      simpl. now rewrite Nat.eqb_refl.
    + rewrite (IH Hrest).
      destruct (negb (Nat.eqb k ws) && JsSet.has channelId (channels info)
                && isOpen (readyState k)); [|reflexivity].
      simpl. now rewrite E.
Qed.

(** A pass performs writes only. *)
Lemma fanout_only_sends (clients : Clients) :
  Forall (fun e => exists to, e = Send to frame)
         (fanout readyState ws channelId frame clients).
Proof.
  induction clients as [|[k info] rest IH]; [constructor|].
  rewrite fanout_cons. apply Forall_app. split; [|exact IH].
  destruct (negb (Nat.eqb k ws) && JsSet.has channelId (channels info)
            && isOpen (readyState k)); repeat constructor. now exists k.
Qed.

(** The sender's own entry plays no part in a pass. *)
Lemma fanout_set_sender (info : ClientInfo) (clients : Clients) :
  fanout readyState ws channelId frame (JsMap.set ws info clients) =
  fanout readyState ws channelId frame clients.
Proof.
  induction clients as [|[k v] rest IH].
  - simpl JsMap.set. rewrite fanout_cons, Nat.eqb_refl. reflexivity.
  - simpl JsMap.set. destruct (Nat.eqb k ws) eqn:E.
    + rewrite !fanout_cons, E, Nat.eqb_refl. reflexivity.
    + rewrite !fanout_cons, IH. reflexivity.
Qed.

End Fanout.

(** ** The scenarios of the protocol, run *)

Example threeClients_value :
  threeClients =
  [ (1, {| userId := Some (JNum 1); channels := [Some (JNum 10)] |});
    (2, {| userId := Some (JNum 2); channels := [Some (JNum 10)] |});
    (3, {| userId := Some (JNum 3); channels := [Some (JNum 10)] |}) ].
Proof. reflexivity. Qed.

Example scenario_new_message :
  snd (onMessage allOpen 1 (Parsed (newMessageMsg 10 hi)) threeClients) =
  [ Send 2 (NewMessageFrame (Some hi)); Send 3 (NewMessageFrame (Some hi)) ].
Proof. reflexivity. Qed.

Example scenario_closed_subscriber :
  snd (run [ Message 1 allOpen (Parsed (authMsg 1));
             Message 1 allOpen (Parsed (joinMsg 10));
             Close 1;
             Message 2 allOpen (Parsed (newMessageMsg 10 hi)) ]
           JsMap.empty) =
  [ ConsoleLog "WebSocket connection closed" ].
Proof. reflexivity. Qed.

Example scenario_skips_closing_socket :
  snd (onMessage (fun c => if Nat.eqb c 2 then CLOSING else OPEN) 1
                 (Parsed (newMessageMsg 10 hi)) threeClients) =
  [ Send 3 (NewMessageFrame (Some hi)) ].
Proof. reflexivity. Qed.

Lemma wf_threeClients : wf threeClients.
Proof. apply reachable_wf. Defined.

(** ** Fan-out of [new_message] and [typing] *)

(** C1: a [new_message] frame from socket [S] leaves the registry as it is
    and writes the frame [{type: 'new_message', message: data}] exactly once
    to every socket that is in the registry with [channelId] in its set, is
    not [S], and is OPEN; it writes nothing to any other socket, [S]
    included, and does nothing besides these writes. *)
Theorem new_message_fanout (readyState : WebSocket -> ReadyState)
    (S : WebSocket) (message : json) (clients : Clients) :
  wf clients ->
  prop message "type" = Some (JStr "new_message") ->
  let r := onMessage readyState S (Parsed message) clients in
  let frame := NewMessageFrame (prop message "data") in
  fst r = clients /\
  Forall (fun e => exists to, e = Send to frame) (snd r) /\
  (forall c,
     deliveries c (snd r) =
     if negb (Nat.eqb c S)
        && subscribed clients c (prop message "channelId")
        && isOpen (readyState c)
     then [frame] else []) /\
  deliveries S (snd r) = [].
Proof.
  intros [Hnd _] Ht. cbv zeta. rewrite (onMessage_new_message _ _ _ _ Ht).
  simpl fst. simpl snd. unfold newMessageFrame.
  split; [reflexivity|]. split; [apply fanout_only_sends|].
  split.
  - intros c. now apply deliveries_fanout.
  - rewrite deliveries_fanout by assumption. now rewrite Nat.eqb_refl.
Qed.

Lemma new_message_fanout_witness :
  wf threeClients /\
  prop (newMessageMsg 10 hi) "type" = Some (JStr "new_message") /\
  deliveries 2
    (snd (onMessage allOpen 1 (Parsed (newMessageMsg 10 hi)) threeClients)) =
  [NewMessageFrame (Some hi)].
Proof.
  split; [exact wf_threeClients|]. split; [reflexivity|].
  exact (proj1 (proj2 (proj2
    (new_message_fanout allOpen 1 (newMessageMsg 10 hi) threeClients
       wf_threeClients eq_refl))) 2).
Defined.

(** C2: a [typing] frame from socket [S] leaves the registry as it is and
    writes a frame of type ['typing'] whose [userId], [channelId] and
    [isTyping] are those of the request exactly once to every socket that
    is in the registry with [channelId] in its set, is not [S], and is OPEN;
    it writes nothing to any other socket, [S] included. *)
Theorem typing_fanout (readyState : WebSocket -> ReadyState)
    (S : WebSocket) (message : json) (clients : Clients) :
  wf clients ->
  prop message "type" = Some (JStr "typing") ->
  let r := onMessage readyState S (Parsed message) clients in
  let frame := TypingFrame (prop message "userId") (prop message "channelId")
                           (prop message "isTyping") in
  fst r = clients /\
  Forall (fun e => exists to, e = Send to frame) (snd r) /\
  (forall c,
     deliveries c (snd r) =
     if negb (Nat.eqb c S)
        && subscribed clients c (prop message "channelId")
        && isOpen (readyState c)
     then [frame] else []) /\
  deliveries S (snd r) = [].
Proof.
  intros [Hnd _] Ht. cbv zeta. rewrite (onMessage_typing _ _ _ _ Ht).
  simpl fst. simpl snd. unfold typingFrame.
  split; [reflexivity|]. split; [apply fanout_only_sends|].
  split.
  - intros c. now apply deliveries_fanout.
  - rewrite deliveries_fanout by assumption. now rewrite Nat.eqb_refl.
Qed.

Lemma wf_oneJoined : wf oneJoined.
Proof. apply reachable_wf. Defined.

Lemma typing_fanout_witness :
  wf oneJoined /\
  prop (typingMsg 10 2 true) "type" = Some (JStr "typing") /\
  deliveries 1
    (snd (onMessage allOpen 2 (Parsed (typingMsg 10 2 true)) oneJoined)) =
  [TypingFrame (Some (JNum 2)) (Some (JNum 10)) (Some (JBool true))] /\
  deliveries 2
    (snd (onMessage allOpen 2 (Parsed (typingMsg 10 2 true)) oneJoined)) = [].
Proof.
  split; [exact wf_oneJoined|]. split; [reflexivity|].
  pose proof (typing_fanout allOpen 2 (typingMsg 10 2 true) oneJoined
                wf_oneJoined eq_refl) as H.
  split.
  - exact (proj1 (proj2 (proj2 H)) 1).
  - exact (proj2 (proj2 (proj2 H))).
Defined.

(** ** Who is in the registry *)

(** A handler adds no key but the one of the socket whose ['auth'] it
    processes. *)
Lemma step_keys (ev : Event) (clients : Clients) (k : WebSocket) :
  In k (JsMap.keys (fst (step ev clients))) ->
  authFrom k ev = true \/ In k (JsMap.keys clients).
Proof.
  destruct ev as [ws | ws rs data | ws]; simpl.
  - tauto.
  - unfold onMessage, tryBody.
    destruct data as [|message]; [simpl; tauto|].
    destruct message; simpl; try tauto.
    destruct (strictEqStr (member "type" members) "auth") eqn:Eauth.
    { simpl. intros H. apply Map_keys_set in H. destruct H as [->|H].
      - left. now rewrite Nat.eqb_refl.
      - now right. }
    rewrite andb_false_r.
    repeat match goal with
    | |- context [if strictEqStr ?v ?l then _ else _] =>
        destruct (strictEqStr v l)
    end; simpl; try tauto;
    (destruct (JsMap.get ws clients) as [info|] eqn:G; simpl; [|tauto];
     intros H; apply Map_keys_set in H; destruct H as [->|H]; [|tauto];
     right; destruct (in_dec Nat.eq_dec ws (JsMap.keys clients)) as [Hin|Hn];
     [exact Hin | apply Map_get_None in Hn; congruence]).
  - intros H. right. now apply Map_keys_delete in H.
Qed.

(** A handler writes to sockets of the registry only. *)
Lemma step_recipients (ev : Event) (clients : Clients) (k : WebSocket) :
  In k (recipients (snd (step ev clients))) -> In k (JsMap.keys clients).
Proof.
  destruct ev as [ws | ws rs data | ws]; simpl; try tauto.
  unfold onMessage, tryBody.
  destruct data as [|message]; [simpl; tauto|].
  destruct message; simpl; try tauto.
  repeat match goal with
  | |- context [if strictEqStr ?v ?l then _ else _] =>
      destruct (strictEqStr v l)
  end; simpl; try tauto;
  try (destruct (JsMap.get ws clients); simpl; tauto);
  intros H; apply (fanout_recipients_keys rs ws _ _ clients k) in H; tauto.
Qed.

(** A socket that is not in the registry and sends no ['auth'] stays out of
    it and is never written to. *)
Lemma run_absent (evs : list Event) (clients : Clients) (c : WebSocket) :
  ~ In c (JsMap.keys clients) ->
  forallb (fun ev => negb (authFrom c ev)) evs = true ->
  ~ In c (JsMap.keys (fst (run evs clients))) /\
  ~ In c (recipients (snd (run evs clients))).
Proof.
  revert clients. induction evs as [|ev rest IH]; intros clients Hout Hevs.
  - simpl. tauto.
  - simpl in Hevs. apply andb_true_iff in Hevs. destruct Hevs as [Hev Hrest].
    apply negb_true_iff in Hev.
    assert (~ In c (JsMap.keys (fst (step ev clients)))) as Hout1.
    { intros H. apply step_keys in H. destruct H; [congruence | tauto]. }
    destruct (IH _ Hout1 Hrest) as [IHk IHr].
    rewrite run_cons. simpl fst. simpl snd. split; [exact IHk|].
    rewrite recipients_app, in_app_iff. intros [H|H]; [|tauto].
    apply step_recipients in H. tauto.
Qed.

Lemma authFrom_origin (c : WebSocket) (ev : Event) :
  origin ev <> c -> authFrom c ev = false.
Proof.
  destruct ev as [ws | ws rs [|message] | ws]; simpl; try reflexivity.
  intros Hne. apply Nat.eqb_neq in Hne. now rewrite Hne.
Qed.

Lemma deliveries_recipients (c : WebSocket) (out : list Effect) :
  ~ In c (recipients out) -> deliveries c out = [].
Proof.
  induction out as [|[to f | t | t e] rest IH]; simpl; auto.
  intros H. destruct (Nat.eqb to c) eqn:E.
  - apply Nat.eqb_eq in E. tauto.
  - apply IH. tauto.
Qed.

(** ** Disconnect *)

(** C3: after the ['close'] handler of socket [C] ran, [C] has no entry in
    the registry, hence is subscribed to no channel, and whatever the other
    sockets send afterwards (a closed socket emits no further event), no
    handler writes to [C] and [C] does not come back into the registry. *)
Theorem close_unregisters (clients : Clients) (C : WebSocket)
    (later : list Event) :
  wf clients ->
  Forall (fun ev => origin ev <> C) later ->
  let closed := fst (onClose C clients) in
  JsMap.get C closed = None /\
  (forall X, subscribed closed C X = false) /\
  (forall readyState S message,
     deliveries C (snd (onMessage readyState S (Parsed message) closed))
     = []) /\
  ~ In C (recipients (snd (run later closed))) /\
  JsMap.get C (fst (run later closed)) = None.
Proof.
  intros [Hnd _] Hlater. cbv zeta. simpl fst.
  pose proof (Map_get_delete_eq C clients Hnd) as Hget.
  assert (~ In C (JsMap.keys (JsMap.delete C clients))) as Hout
    by now apply Map_get_None.
  split; [exact Hget|]. split.
  { intros X. unfold subscribed. now rewrite Hget. }
  split.
  { intros rs S message. apply deliveries_recipients. intros H.
    apply (step_recipients (Message S rs (Parsed message))) in H. tauto. }
  assert (forallb (fun ev => negb (authFrom C ev)) later = true) as Hno.
  { apply forallb_forall. intros ev Hin. rewrite Forall_forall in Hlater.
    now rewrite (authFrom_origin C ev (Hlater ev Hin)). }
  destruct (run_absent later _ C Hout Hno) as [Hk Hr].
  split; [exact Hr|]. now apply Map_get_None.
Qed.

Lemma close_unregisters_witness :
  wf threeClients /\
  Forall (fun ev => origin ev <> 1)
    [Message 2 allOpen (Parsed (newMessageMsg 10 hi));
     Message 3 allOpen (Parsed (typingMsg 10 3 true))] /\
  ~ In 1 (recipients (snd (run
      [Message 2 allOpen (Parsed (newMessageMsg 10 hi));
       Message 3 allOpen (Parsed (typingMsg 10 3 true))]
      (fst (onClose 1 threeClients))))).
Proof.
  assert (Forall (fun ev => origin ev <> 1)
    [Message 2 allOpen (Parsed (newMessageMsg 10 hi));
     Message 3 allOpen (Parsed (typingMsg 10 3 true))]) as Hl
    by (repeat constructor; simpl; lia).
  split; [exact wf_threeClients|]. split; [exact Hl|].
  exact (proj1 (proj2 (proj2 (proj2
    (close_unregisters threeClients 1 _ wf_threeClients Hl))))).
Defined.

(** ** Join then leave *)




(** ** Identification *)

(** C5, as the specification words it, fails: socket 1 identifies, joins
    channel 10 and identifies again; the second ['auth'] stores a new, empty
    set, so the subscription to channel 10 is gone. *)
Lemma reidentify_loses_channels :
  let before :=
    fst (run [ Message 1 allOpen (Parsed (authMsg 7));
               Message 1 allOpen (Parsed (joinMsg 10)) ] JsMap.empty) in
  let after := fst (onMessage allOpen 1 (Parsed (authMsg 8)) before) in
  option_map channels (JsMap.get 1 before) = Some [Some (JNum 10)] /\
  option_map channels (JsMap.get 1 after) = Some [] /\
  option_map channels (JsMap.get 1 after)
    <> option_map channels (JsMap.get 1 before) /\
  subscribed before 1 (Some (JNum 10)) = true /\
  subscribed after 1 (Some (JNum 10)) = false.
Proof.
  cbv zeta. repeat split; try reflexivity. discriminate.
Qed.

(** C5, amended: an ['auth'] frame from socket [ws] stores for [ws] the
    asserted [userId] together with an empty channel set, whatever [ws] had
    before (so of two ['auth'] frames the later one decides the identity,
    and [ws] is subscribed to nothing afterwards); the entries of all other
    sockets stay as they are and nothing is written. *)
Theorem auth_records_identity (readyState : WebSocket -> ReadyState)
    (ws : WebSocket) (message : json) (clients : Clients) :
  prop message "type" = Some (JStr "auth") ->
  let r := onMessage readyState ws (Parsed message) clients in
  JsMap.get ws (fst r) =
    Some {| userId := prop message "userId"; channels := JsSet.empty |} /\
  (forall X, subscribed (fst r) ws X = false) /\
  (forall c, c <> ws -> JsMap.get c (fst r) = JsMap.get c clients) /\
  (forall c X, c <> ws -> subscribed (fst r) c X = subscribed clients c X) /\
  snd r = [].
Proof.
  intros Ht. cbv zeta. rewrite (onMessage_auth _ _ _ _ Ht). simpl fst.
  split; [apply Map_get_set_eq|]. split.
  { intros X. unfold subscribed. now rewrite Map_get_set_eq. }
  split; [intros c Hc; now apply Map_get_set_neq|]. split; [|reflexivity].
  intros c X Hc. unfold subscribed. now rewrite Map_get_set_neq.
Qed.

Lemma auth_records_identity_witness :
  prop (authMsg 8) "type" = Some (JStr "auth") /\
  JsMap.get 1 (fst (onMessage allOpen 1 (Parsed (authMsg 8)) threeClients)) =
    Some {| userId := Some (JNum 8); channels := [] |}.
Proof.
  split; [reflexivity|].
  exact (proj1 (auth_records_identity allOpen 1 (authMsg 8) threeClients
                  eq_refl)).
Defined.

(** ** Joining *)

Lemma strictEqStr_true (v : value) (lit : string) :
  strictEqStr v lit = true -> v = Some (JStr lit).
Proof.
  destruct v as [[| b | n | s | l | ms]|]; simpl; try discriminate.
  intros H. apply String.eqb_eq in H. now subst.
Qed.

Lemma onMessage_broadcast (readyState : WebSocket -> ReadyState)
    (ws : WebSocket) (message : json) (frame : Frame) (clients : Clients) :
  broadcastFrame message = Some frame ->
  onMessage readyState ws (Parsed message) clients =
  (clients, fanout readyState ws (prop message "channelId") frame clients).
Proof.
  unfold broadcastFrame.
  destruct (strictEqStr (prop message "type") "new_message") eqn:E1.
  - intros [= <-]. apply onMessage_new_message. now apply strictEqStr_true.
  - destruct (strictEqStr (prop message "type") "typing") eqn:E2;
      [|discriminate].
    intros [= <-]. apply onMessage_typing. now apply strictEqStr_true.
Qed.

(** C6, as the specification words it, fails: a socket that connects and
    sends [join_channel] without having sent ['auth'] has no entry in the
    registry, the guard [if (clientData)] skips the [add], and a later
    [new_message] for the channel is not written to it. *)
Lemma join_before_auth_ignored :
  let clients :=
    fst (run [ Connection 1; Connection 2;
               Message 2 allOpen (Parsed (authMsg 2));
               Message 1 allOpen (Parsed (joinMsg 10)) ] JsMap.empty) in
  JsMap.get 1 clients = None /\
  subscribed clients 1 (Some (JNum 10)) = false /\
  snd (onMessage allOpen 2 (Parsed (newMessageMsg 10 hi)) clients) = [].
Proof. cbv zeta. repeat split; reflexivity. Qed.

Lemma Set_has_add_spec (x y : value) (s : JsSet.t) :
  JsSet.has y (JsSet.add x s) = JsSet.has y s || sameValueZero y x.
Proof.
  unfold JsSet.add. destruct (JsSet.has x s) eqn:E.
  - destruct (sameValueZero y x) eqn:Eyx; [|now rewrite orb_false_r].
    apply sameValueZero_eq in Eyx. subst y. now rewrite E.
  - rewrite Set_has_app. simpl. now rewrite orb_false_r.
Qed.

(** C6, amended: [join_channel] takes effect only for a socket that has
    identified.  For a socket [C] that never sent ['auth'], the frame
    changes nothing: [C] has no entry, is subscribed to no channel, and no
    frame processed afterwards is written to [C], as long as [C] sends no
    ['auth'].  For a socket [C] that has an entry, the frame adds the
    channel id [X] (a number, or any value compared by value) to [C]'s set
    and changes nothing else: the set is the old one with [X] appended if
    it was not there, so every channel [C] was subscribed to stays and no
    other comes in; [C]'s identity, the entries of the other sockets and
    the transports are untouched.  So [C] is subscribed to [X] and the next
    [new_message] or [typing] frame for [X] from another socket is written
    to [C] once if [C] is OPEN. *)
Theorem join_requires_identity (rs : WebSocket -> ReadyState)
    (C : WebSocket) (join : json) :
  prop join "type" = Some (JStr "join_channel") ->
  let X := prop join "channelId" in
  (forall history,
     forallb (fun ev => negb (authFrom C ev)) history = true ->
     let clients := fst (run history JsMap.empty) in
     JsMap.get C clients = None /\
     onMessage rs C (Parsed join) clients = (clients, []) /\
     subscribed clients C X = false /\
     (forall Y,
        subscribed (fst (onMessage rs C (Parsed join) clients)) C Y = false)
     /\
     (forall rs' S broadcast,
        deliveries C
          (snd (onMessage rs' S (Parsed broadcast)
                  (fst (onMessage rs C (Parsed join) clients)))) = []) /\
     (forall later,
        forallb (fun ev => negb (authFrom C ev)) later = true ->
        ~ In C (recipients
                  (snd (run later
                          (fst (onMessage rs C (Parsed join) clients))))))) /\
  (forall clients info,
     wf clients ->
     JsMap.get C clients = Some info ->
     primitive X = true ->
     let r := onMessage rs C (Parsed join) clients in
     snd r = [] /\
     option_map userId (JsMap.get C (fst r)) = Some (userId info) /\
     (forall c, c <> C -> JsMap.get c (fst r) = JsMap.get c clients) /\
     subscribed (fst r) C X = true /\
     (forall rs' S broadcast frame,
        S <> C -> rs' C = OPEN ->
        broadcastFrame broadcast = Some frame ->
        prop broadcast "channelId" = X ->
        deliveries C (snd (onMessage rs' S (Parsed broadcast) (fst r)))
        = [frame]) /\
     JsMap.get C (fst r) =
       Some {| userId := userId info;
               channels := if existsb (sameValueZero X) (channels info)
                           then channels info
                           else channels info ++ [X] |} /\
     (forall Y,
        subscribed (fst r) C Y
        = subscribed clients C Y || sameValueZero Y X) /\
     (forall Y,
        subscribed clients C Y = true -> subscribed (fst r) C Y = true)).
Proof.
  intros Ht. cbv zeta. split.
  - intros history Hno.
    destruct (run_absent history JsMap.empty C (fun H => H) Hno) as [Hk _].
    pose proof Hk as Hget. apply Map_get_None in Hget.
    rewrite (onMessage_join_channel _ _ _ _ Ht), Hget. simpl fst.
    unfold subscribed. rewrite Hget.
    split; [reflexivity|]. split; [reflexivity|]. split; [reflexivity|].
    split; [reflexivity|]. split.
    + intros rs' S broadcast. apply deliveries_recipients. intros H.
      apply (step_recipients (Message S rs' (Parsed broadcast))) in H.
      contradiction.
    + intros later Hlater.
      exact (proj2 (run_absent later _ C Hk Hlater)).
  - intros clients info Hwf Hget Hprim.
    pose proof (onMessage_wf rs C (Parsed join) clients Hwf) as [Hnd _].
    revert Hnd. rewrite (onMessage_join_channel _ _ _ _ Ht), Hget.
    simpl fst. simpl snd. intros Hnd.
    assert (forall Y,
              subscribed
                (JsMap.set C {| userId := userId info;
                                channels := JsSet.add (prop join "channelId")
                                                      (channels info) |}
                           clients) C Y
              = subscribed clients C Y
                || sameValueZero Y (prop join "channelId")) as Hall.
    { intros Y. unfold subscribed. rewrite Map_get_set_eq, Hget. simpl.
      apply Set_has_add_spec. }
    assert (subscribed
              (JsMap.set C {| userId := userId info;
                              channels := JsSet.add (prop join "channelId")
                                                    (channels info) |}
                         clients) C (prop join "channelId") = true) as Hsub.
    { rewrite Hall, (sameValueZero_refl _ Hprim). apply orb_true_r. }
    split; [reflexivity|]. split; [now rewrite Map_get_set_eq|].
    split; [intros c Hc; now apply Map_get_set_neq|].
    split; [exact Hsub|]. split.
    { intros rs' S broadcast frame HS Hopen Hb Hx.
      rewrite (onMessage_broadcast _ _ _ _ _ Hb). simpl snd.
      rewrite deliveries_fanout by exact Hnd.
      rewrite Hx, Hsub, Hopen.
      assert (Nat.eqb C S = false) as -> by (apply Nat.eqb_neq; congruence).
      reflexivity. }
    split; [now rewrite Map_get_set_eq|]. split; [exact Hall|].
    intros Y HY. now rewrite Hall, HY.
Qed.

Lemma join_requires_identity_witness :
  prop (joinMsg 10) "type" = Some (JStr "join_channel") /\
  onMessage allOpen 1 (Parsed (joinMsg 10))
            (fst (run [Connection 1] JsMap.empty)) =
    (fst (run [Connection 1] JsMap.empty), []) /\
  deliveries 2
    (snd (onMessage allOpen 1 (Parsed (newMessageMsg 10 hi))
            (fst (onMessage allOpen 2 (Parsed (joinMsg 10)) oneJoined))))
  = [NewMessageFrame (Some hi)] /\
  JsMap.get 1 (fst (onMessage allOpen 1 (Parsed (joinMsg 11)) threeClients))
  = Some {| userId := Some (JNum 1);
            channels := [Some (JNum 10); Some (JNum 11)] |} /\
  subscribed (fst (onMessage allOpen 1 (Parsed (joinMsg 11)) threeClients))
             1 (Some (JNum 10)) = true.
Proof.
  pose proof (join_requires_identity allOpen 1 (joinMsg 10) eq_refl) as H1.
  pose proof (join_requires_identity allOpen 2 (joinMsg 10) eq_refl) as H2.
  pose proof (proj2 (join_requires_identity allOpen 1 (joinMsg 11) eq_refl)
                threeClients
                {| userId := Some (JNum 1); channels := [Some (JNum 10)] |}
                wf_threeClients eq_refl eq_refl) as H3.
  split; [reflexivity|]. split.
  { exact (proj1 (proj2 (proj1 H1 [Connection 1] eq_refl))). }
  split.
  { refine (proj1 (proj2 (proj2 (proj2 (proj2
      (proj2 H2 oneJoined {| userId := Some (JNum 2); channels := [] |}
         wf_oneJoined eq_refl eq_refl)))))
      allOpen 1 (newMessageMsg 10 hi) _ _ eq_refl eq_refl eq_refl).
    simpl. lia. }
  split.
  { exact (proj1 (proj2 (proj2 (proj2 (proj2 (proj2 H3)))))). }
  exact (proj2 (proj2 (proj2 (proj2 (proj2 (proj2 (proj2 H3))))))
           (Some (JNum 10)) eq_refl).
Defined.

(** ** Frames that do not decode *)

(** C7, as the specification words it, fails for a frame that carries a
    known tag but lacks its payload: the handler does not validate the
    payload.  [{"type":"auth"}] from socket 1 replaces its entry (user 1,
    channel 10) by one without identity and without channels; and once
    socket 1 has sent [{"type":"join_channel"}], a bare
    [{"type":"new_message"}] from socket 2 is written to socket 1. *)
Lemma malformed_payload_processed :
  let bareAuth := JObj [("type", JStr "auth")] in
  let bareJoin := JObj [("type", JStr "join_channel")] in
  let bareNewMessage := JObj [("type", JStr "new_message")] in
  let afterAuth := fst (onMessage allOpen 1 (Parsed bareAuth) threeClients) in
  let afterJoin := fst (onMessage allOpen 1 (Parsed bareJoin) threeClients) in
  JsMap.get 1 threeClients =
    Some {| userId := Some (JNum 1); channels := [Some (JNum 10)] |} /\
  JsMap.get 1 afterAuth = Some {| userId := None; channels := [] |} /\
  afterAuth <> threeClients /\
  afterJoin <> threeClients /\
  snd (onMessage allOpen 2 (Parsed bareNewMessage) afterJoin)
  = [Send 1 (NewMessageFrame None)].
Proof.
  cbv zeta. repeat split; try reflexivity; discriminate.
Qed.

(** C7, amended: a frame that does not decode ([JSON.parse] throws, the
    text is [null], or [type] is missing, not a string or none of the five
    known tags) leaves the registry as it is and writes to no socket; the
    handler returns normally, at most having reported the caught exception
    on the console, and the socket it arrived on keeps its entry.  A frame
    with a known tag is never dropped for its payload: the handler
    validates no field and runs the case of the tag with each field as the
    frame has it, a missing one read as [undefined]; it neither throws nor
    logs. *)
Theorem undecodable_dropped (readyState : WebSocket -> ReadyState)
    (C : WebSocket) (clients : Clients) :
  (forall data,
     undecodable data = true ->
     let r := onMessage readyState C data clients in
     fst r = clients /\
     recipients (snd r) = [] /\
     (snd r = [] \/
      exists e, snd r = [ConsoleError "WebSocket message error:" e]) /\
     JsMap.get C (fst r) = JsMap.get C clients) /\
  (forall message,
     let r := onMessage readyState C (Parsed message) clients in
     (prop message "type" = Some (JStr "auth") ->
      r = (JsMap.set C {| userId := prop message "userId";
                          channels := [] |} clients, [])) /\
     (prop message "type" = Some (JStr "join_channel") ->
      r = match JsMap.get C clients with
          | Some clientData =>
              (JsMap.set C
                 {| userId := userId clientData;
                    channels := JsSet.add (prop message "channelId")
                                          (channels clientData) |}
                 clients, [])
          | None => (clients, [])
          end) /\
     (prop message "type" = Some (JStr "leave_channel") ->
      r = match JsMap.get C clients with
          | Some client =>
              (JsMap.set C
                 {| userId := userId client;
                    channels := JsSet.delete (prop message "channelId")
                                             (channels client) |}
                 clients, [])
          | None => (clients, [])
          end) /\
     (prop message "type" = Some (JStr "new_message") ->
      r = (clients,
           fanout readyState C (prop message "channelId")
                  (NewMessageFrame (prop message "data")) clients)) /\
     (prop message "type" = Some (JStr "typing") ->
      r = (clients,
           fanout readyState C (prop message "channelId")
                  (TypingFrame (prop message "userId")
                               (prop message "channelId")
                               (prop message "isTyping")) clients)) /\
     (undecodable (Parsed message) = false ->
      forall e text, ~ In (ConsoleError text e) (snd r))).
Proof.
  split.
  - intros data Hu. cbv zeta.
    assert (onMessage readyState C data clients = (clients, []) \/
            exists e, onMessage readyState C data clients =
                      (clients, [ConsoleError "WebSocket message error:" e]))
      as [->| [e ->]].
    { unfold onMessage, tryBody. destruct data as [|message].
      - right. now exists SyntaxError.
      - destruct message; simpl; try (now left);
          try (right; now exists TypeError).
        simpl in Hu. unfold unknownType in Hu. simpl in Hu.
        apply negb_true_iff in Hu.
        repeat (apply orb_false_iff in Hu; destruct Hu as [Hu ?]).
        repeat match goal with
        | H : strictEqStr _ _ = false |- _ => rewrite H; clear H
        end.
        now left. }
    + simpl. auto.
    + simpl. eauto 6.
  - intros message. cbv zeta.
    split; [apply onMessage_auth|].
    split; [apply onMessage_join_channel|].
    split; [apply onMessage_leave_channel|].
    split; [apply onMessage_new_message|].
    split; [apply onMessage_typing|].
    intros Hd e text Hin.
    assert (unknownType message = false) as Hu
      by (destruct message; simpl in Hd; try discriminate Hd; exact Hd).
    assert (forall X f, ~ In (ConsoleError text e)
                             (fanout readyState C X f clients)) as Hf.
    { intros X f H. pose proof (fanout_only_sends readyState C X f clients)
        as Hs. rewrite Forall_forall in Hs.
      destruct (Hs _ H) as [to Hto]. discriminate Hto. }
    unfold unknownType in Hu. apply negb_false_iff in Hu.
    repeat (apply orb_true_iff in Hu; destruct Hu as [Hu|Hu]);
      apply strictEqStr_true in Hu.
    + rewrite (onMessage_auth _ _ _ _ Hu) in Hin. destruct Hin.
    + rewrite (onMessage_join_channel _ _ _ _ Hu) in Hin.
      destruct (JsMap.get C clients); destruct Hin.
    + rewrite (onMessage_leave_channel _ _ _ _ Hu) in Hin.
      destruct (JsMap.get C clients); destruct Hin.
    + rewrite (onMessage_new_message _ _ _ _ Hu) in Hin.
      exact (Hf _ _ Hin).
    + rewrite (onMessage_typing _ _ _ _ Hu) in Hin. exact (Hf _ _ Hin).
Qed.

Lemma undecodable_dropped_witness :
  undecodable (Parsed (JObj [("type", JStr "ping")])) = true /\
  undecodable ParseFails = true /\
  onMessage allOpen 1 (Parsed (JObj [("type", JStr "ping")])) threeClients
    = (threeClients, []) /\
  fst (onMessage allOpen 1 ParseFails threeClients) = threeClients /\
  onMessage allOpen 1 (Parsed (JObj [("type", JStr "auth")])) threeClients
  = (JsMap.set 1 {| userId := None; channels := [] |} threeClients, []).
Proof.
  pose proof (undecodable_dropped allOpen 1 threeClients) as [H1 H2].
  split; [reflexivity|]. split; [reflexivity|]. split; [reflexivity|].
  split.
  - exact (proj1 (H1 ParseFails eq_refl)).
  - exact (proj1 (H2 (JObj [("type", JStr "auth")])) eq_refl).
Defined.

(** ** The sender's own state *)

(** C8: a [new_message] or [typing] frame from a socket [S] that never
    sent ['auth'] is fanned out all the same: [S] has no entry, the
    registry is left as it is, every subscribed and OPEN socket is written
    the frame once, and the writes are those the same frame causes once [S]
    has identified. *)
Theorem unidentified_broadcaster (history : list Event)
    (readyState : WebSocket -> ReadyState) (S : WebSocket)
    (message : json) (frame : Frame) :
  forallb (fun ev => negb (authFrom S ev)) history = true ->
  broadcastFrame message = Some frame ->
  let clients := fst (run history JsMap.empty) in
  let r := onMessage readyState S (Parsed message) clients in
  JsMap.get S clients = None /\
  fst r = clients /\
  (forall c,
     deliveries c (snd r) =
     if subscribed clients c (prop message "channelId")
        && isOpen (readyState c)
     then [frame] else []) /\
  (forall rs0 auth,
     prop auth "type" = Some (JStr "auth") ->
     snd (onMessage readyState S (Parsed message)
            (fst (onMessage rs0 S (Parsed auth) clients))) = snd r).
Proof.
  intros Hno Hb. cbv zeta.
  destruct (run_absent history JsMap.empty S (fun H => H) Hno) as [Hk _].
  apply Map_get_None in Hk.
  destruct (reachable_wf history) as [Hnd _].
  rewrite (onMessage_broadcast _ _ _ _ _ Hb). simpl fst. simpl snd.
  split; [exact Hk|]. split; [reflexivity|]. split.
  - intros c. rewrite deliveries_fanout by exact Hnd.
    destruct (Nat.eqb c S) eqn:E; [|reflexivity].
    apply Nat.eqb_eq in E. subst c. unfold subscribed. now rewrite Hk.
  - intros rs0 auth Ha. rewrite (onMessage_auth _ _ _ _ Ha). simpl fst.
    rewrite (onMessage_broadcast _ _ _ _ _ Hb). simpl snd.
    apply fanout_set_sender.
Qed.

Lemma unidentified_broadcaster_witness :
  forallb (fun ev => negb (authFrom 4 ev)) threeJoined = true /\
  broadcastFrame (newMessageMsg 10 hi) = Some (NewMessageFrame (Some hi)) /\
  JsMap.get 4 threeClients = None /\
  deliveries 1
    (snd (onMessage allOpen 4 (Parsed (newMessageMsg 10 hi)) threeClients))
  = [NewMessageFrame (Some hi)].
Proof.
  pose proof (unidentified_broadcaster threeJoined allOpen 4
                (newMessageMsg 10 hi) (NewMessageFrame (Some hi))
                eq_refl eq_refl) as H.
  split; [reflexivity|]. split; [reflexivity|].
  split; [exact (proj1 H)|].
  exact (proj1 (proj2 (proj2 H)) 1).
Defined.

(** C9: the writes of a [new_message] or [typing] frame from [S] do not
    depend on [S]'s own entry: they are the same whatever entry [S] is
    given, and every other socket [c] is written the frame once exactly
    when [c] itself is subscribed to the channel and OPEN; in particular
    this is so when [S] is not subscribed to the channel. *)
Theorem sender_subscriptions_irrelevant
    (readyState : WebSocket -> ReadyState) (S : WebSocket)
    (message : json) (frame : Frame) (clients : Clients) :
  wf clients ->
  broadcastFrame message = Some frame ->
  let X := prop message "channelId" in
  let r := onMessage readyState S (Parsed message) clients in
  (forall info,
     snd (onMessage readyState S (Parsed message) (JsMap.set S info clients))
     = snd r) /\
  (forall c,
     c <> S ->
     deliveries c (snd r) =
     if subscribed clients c X && isOpen (readyState c)
     then [frame] else []) /\
  (subscribed clients S X = false ->
   forall c,
     subscribed clients c X = true -> readyState c = OPEN ->
     deliveries c (snd r) = [frame]).
Proof.
  intros [Hnd _] Hb. cbv zeta.
  rewrite (onMessage_broadcast _ _ _ _ _ Hb). simpl snd.
  split.
  { intros info. rewrite (onMessage_broadcast _ _ _ _ _ Hb). simpl snd.
    apply fanout_set_sender. }
  split.
  - intros c Hc. rewrite deliveries_fanout by exact Hnd.
    apply Nat.eqb_neq in Hc. now rewrite Hc.
  - intros HS c Hsub Hopen. rewrite deliveries_fanout by exact Hnd.
    rewrite Hsub, Hopen.
    destruct (Nat.eqb c S) eqn:E; [|reflexivity].
    apply Nat.eqb_eq in E. subst c. congruence.
Qed.

Lemma sender_subscriptions_irrelevant_witness :
  wf oneJoined /\
  broadcastFrame (typingMsg 10 2 true) =
    Some (TypingFrame (Some (JNum 2)) (Some (JNum 10)) (Some (JBool true))) /\
  subscribed oneJoined 2 (Some (JNum 10)) = false /\
  deliveries 1
    (snd (onMessage allOpen 2 (Parsed (typingMsg 10 2 true)) oneJoined))
  = [TypingFrame (Some (JNum 2)) (Some (JNum 10)) (Some (JBool true))].
Proof.
  split; [exact wf_oneJoined|]. split; [reflexivity|].
  split; [reflexivity|].
  exact (proj2 (proj2
    (sender_subscriptions_irrelevant allOpen 2 (typingMsg 10 2 true) _
       oneJoined wf_oneJoined eq_refl)) eq_refl 1 eq_refl eq_refl).
Defined.

(** * Further properties of the WebSocket handlers *)

Lemma fanout_recipients_open (readyState : WebSocket -> ReadyState)
    (ws : WebSocket) (channelId : value) (frame : Frame) (clients : Clients)
    (c : WebSocket) :
  In c (recipients (fanout readyState ws channelId frame clients)) ->
  readyState c = OPEN.
Proof.
  induction clients as [|[k info] rest IH]; [simpl; tauto|].
  rewrite fanout_cons, recipients_app, in_app_iff. intros [H|H]; [|auto].
  destruct (negb (Nat.eqb k ws) && JsSet.has channelId (channels info))
    eqn:E1; simpl in H; [|tauto].
  destruct (readyState k) eqn:E2; simpl in H; try tauto.
  destruct H as [<-|[]]. exact E2.
Qed.

(** What a ['message'] handler can do, whatever the frame: leave the map
    alone and write nothing to any socket, leave it alone and run one
    fan-out pass, or store one entry for its own socket. *)
Lemma onMessage_cases (readyState : WebSocket -> ReadyState)
    (ws : WebSocket) (data : ParseResult) (clients : Clients) :
  (exists out, onMessage readyState ws data clients = (clients, out)
               /\ recipients out = []) \/
  (exists channelId frame,
     onMessage readyState ws data clients =
     (clients, fanout readyState ws channelId frame clients)) \/
  (exists info,
     onMessage readyState ws data clients = (JsMap.set ws info clients, [])).
Proof.
  unfold onMessage, tryBody. destruct data as [|message].
  { left. eexists. split; reflexivity. }
  destruct message; simpl;
    try (left; eexists; split; reflexivity).
  repeat match goal with
  | |- context [if strictEqStr ?v ?l then _ else _] =>
      destruct (strictEqStr v l)
  end;
  try (destruct (JsMap.get ws clients));
  try (left; eexists; split; reflexivity);
  try (right; right; eexists; reflexivity);
  right; left; do 2 eexists; reflexivity.
Qed.

(** X1: whatever frame arrives on socket [ws], every socket the handler
    writes to is another socket, has an entry in the registry, and is OPEN
    at that moment. *)
Theorem writes_only_to_open_registered_others
    (readyState : WebSocket -> ReadyState) (ws : WebSocket)
    (data : ParseResult) (clients : Clients) :
  Forall (fun c => c <> ws /\ In c (JsMap.keys clients)
                   /\ readyState c = OPEN)
         (recipients (snd (onMessage readyState ws data clients))).
Proof.
  apply Forall_forall. intros c Hin.
  destruct (onMessage_cases readyState ws data clients)
    as [(out & E & Hout) | [(X & f & E) | (info & E)]];
    rewrite E in Hin; simpl in Hin.
  - rewrite Hout in Hin. destruct Hin.
  - destruct (fanout_recipients_keys _ _ _ _ _ _ Hin).
    pose proof (fanout_recipients_open _ _ _ _ _ _ Hin). tauto.
  - destruct Hin.
Qed.

Lemma onMessage_get_other (readyState : WebSocket -> ReadyState)
    (ws c : WebSocket) (data : ParseResult) (clients : Clients) :
  c <> ws ->
  JsMap.get c (fst (onMessage readyState ws data clients))
  = JsMap.get c clients.
Proof.
  intros Hc.
  destruct (onMessage_cases readyState ws data clients)
    as [(out & E & _) | [(X & f & E) | (info & E)]]; rewrite E; simpl;
    try reflexivity.
  now apply Map_get_set_neq.
Qed.

(** X2: a frame arriving on socket [ws] never changes the entry of another
    socket: identity and subscriptions of every [c <> ws] are what they
    were. *)
Theorem message_touches_own_entry_only
    (readyState : WebSocket -> ReadyState) (ws c : WebSocket)
    (data : ParseResult) (clients : Clients) :
  c <> ws ->
  JsMap.get c (fst (onMessage readyState ws data clients))
  = JsMap.get c clients.
Proof. apply onMessage_get_other. Qed.

Lemma message_touches_own_entry_only_witness :
  2 <> 1 /\
  JsMap.get 2 (fst (onMessage allOpen 1 (Parsed (leaveMsg 10)) threeClients))
  = JsMap.get 2 threeClients.
Proof.
  assert (2 <> 1) as H by lia. split; [exact H|].
  exact (message_touches_own_entry_only allOpen 1 2 (Parsed (leaveMsg 10))
           threeClients H).
Defined.

(** X3: only ['auth'] registers: a socket that has an entry in a registry
    reached from the empty one has sent an ['auth'] frame. *)
Theorem registered_sockets_sent_auth (history : list Event) (k : WebSocket) :
  In k (JsMap.keys (fst (run history JsMap.empty))) ->
  existsb (authFrom k) history = true.
Proof.
  intros Hin. destruct (existsb (authFrom k) history) eqn:E; [reflexivity|].
  assert (forallb (fun ev => negb (authFrom k ev)) history = true) as Hno.
  { apply forallb_forall. intros ev Hev. apply negb_true_iff.
    destruct (authFrom k ev) eqn:Ea; [|reflexivity].
    assert (existsb (authFrom k) history = true)
      by (apply existsb_exists; eauto).
    congruence. }
  destruct (run_absent history JsMap.empty k (fun H => H) Hno) as [Hk _].
  contradiction.
Qed.

Lemma registered_sockets_sent_auth_witness :
  In 2 (JsMap.keys (fst (run threeJoined JsMap.empty))) /\
  existsb (authFrom 2) threeJoined = true.
Proof.
  assert (In 2 (JsMap.keys (fst (run threeJoined JsMap.empty)))) as H
    by (simpl; tauto).
  split; [exact H|].
  exact (registered_sockets_sent_auth threeJoined 2 H).
Defined.

Lemma Set_has_add_inv (x y : value) (s : JsSet.t) :
  JsSet.has x (JsSet.add y s) = true ->
  JsSet.has x s = true \/ sameValueZero x y = true.
Proof.
  unfold JsSet.add. destruct (JsSet.has y s); [tauto|].
  rewrite Set_has_app. simpl. rewrite orb_false_r.
  intros H. apply orb_true_iff in H. tauto.
Qed.

Lemma Set_has_add_other (x y : value) (s : JsSet.t) :
  sameValueZero x y = false ->
  JsSet.has x (JsSet.add y s) = JsSet.has x s.
Proof.
  intros Hxy. unfold JsSet.add. destruct (JsSet.has y s); [reflexivity|].
  rewrite Set_has_app. simpl. rewrite Hxy. now rewrite !orb_false_r.
Qed.

Lemma Set_has_delete_other (x y : value) (s : JsSet.t) :
  sameValueZero x y = false ->
  JsSet.has x (JsSet.delete y s) = JsSet.has x s.
Proof.
  intros Hxy. induction s as [|z rest IH]; [reflexivity|]. simpl.
  destruct (sameValueZero y z) eqn:E.
  - apply sameValueZero_eq in E. subst z. now rewrite Hxy.
  - simpl. now rewrite IH.
Qed.

Lemma Set_delete_absent (x : value) (s : JsSet.t) :
  JsSet.has x s = false -> JsSet.delete x s = s.
Proof.
  induction s as [|y rest IH]; [reflexivity|]. simpl. intros H.
  apply orb_false_iff in H. destruct H as [Hxy Hrest].
  rewrite Hxy. now rewrite IH.
Qed.

Lemma Set_has_nonprimitive (x : value) (s : JsSet.t) :
  primitive x = false -> JsSet.has x s = false.
Proof.
  intros Hx. induction s as [|y rest IH]; [reflexivity|]. simpl.
  rewrite IH, orb_false_r.
  destruct x as [[| b | n | t | l | ms]|]; try discriminate;
    now destruct y as [[| b' | n' | t' | l' | ms']|].
Qed.

Lemma Map_set_same (k : WebSocket) (v : ClientInfo) (m : JsMap.t) :
  JsMap.get k m = Some v -> JsMap.set k v m = m.
Proof.
  induction m as [|[k' v'] rest IH]; simpl; [discriminate|].
  destruct (Nat.eqb k' k) eqn:E.
  - apply Nat.eqb_eq in E. intros [= ->]. now subst.
  - intros H. now rewrite IH.
Qed.

Lemma Map_delete_absent (k : WebSocket) (m : JsMap.t) :
  JsMap.get k m = None -> JsMap.delete k m = m.
Proof.
  induction m as [|[k' v'] rest IH]; simpl; [reflexivity|].
  destruct (Nat.eqb k' k); [discriminate|]. intros H. now rewrite IH.
Qed.

(** A frame of another type than ['auth'], [join_channel] and
    [leave_channel] stores nothing. *)
Lemma onMessage_no_store (readyState : WebSocket -> ReadyState)
    (ws : WebSocket) (message : json) (clients : Clients) :
  strictEqStr (prop message "type") "auth" = false ->
  strictEqStr (prop message "type") "join_channel" = false ->
  strictEqStr (prop message "type") "leave_channel" = false ->
  fst (onMessage readyState ws (Parsed message) clients) = clients.
Proof.
  intros Ea Ej El. unfold onMessage, tryBody.
  destruct message; simpl; try reflexivity.
  simpl in Ea, Ej, El. rewrite Ea, Ej, El.
  repeat match goal with
  | |- context [if strictEqStr ?v ?l then _ else _] =>
      destruct (strictEqStr v l)
  end; reflexivity.
Qed.

(** A subscription seen after one event was there before or comes from a
    [join_channel] frame of that socket for that channel. *)
Lemma step_subscribed (ev : Event) (clients : Clients) (c : WebSocket)
    (X : value) :
  wf clients ->
  subscribed (fst (step ev clients)) c X = true ->
  subscribed clients c X = true \/ joinFrom c X ev = true.
Proof.
  intros Hwf. destruct ev as [ws | ws rs data | ws]; simpl.
  - tauto.
  - destruct (Nat.eq_dec c ws) as [->|Hne].
    2:{ unfold subscribed.
        rewrite (onMessage_get_other rs ws c data clients Hne).
        tauto. }
    rewrite Nat.eqb_refl. destruct data as [|message].
    { unfold onMessage. simpl. tauto. }
    destruct (strictEqStr (prop message "type") "auth") eqn:Ea.
    { apply strictEqStr_true in Ea. rewrite (onMessage_auth _ _ _ _ Ea).
      unfold subscribed at 1. simpl fst. rewrite Map_get_set_eq. simpl.
      discriminate. }
    destruct (strictEqStr (prop message "type") "join_channel") eqn:Ej.
    { pose proof (strictEqStr_true _ _ Ej) as Ej'.
      rewrite (onMessage_join_channel _ _ _ _ Ej'). unfold subscribed.
      destruct (JsMap.get ws clients) as [info|] eqn:G; simpl fst.
      - rewrite Map_get_set_eq. simpl. intros H.
        apply Set_has_add_inv in H. destruct H as [H|H]; [tauto|].
        right. now rewrite H.
      - rewrite G. discriminate. }
    destruct (strictEqStr (prop message "type") "leave_channel") eqn:El.
    { apply strictEqStr_true in El.
      rewrite (onMessage_leave_channel _ _ _ _ El). unfold subscribed.
      destruct (JsMap.get ws clients) as [info|] eqn:G; simpl fst.
      - rewrite Map_get_set_eq. simpl. intros H.
        apply Set_has_delete_mono in H. tauto.
      - rewrite G. discriminate. }
    rewrite (onMessage_no_store rs ws message clients Ea Ej El). tauto.
  - unfold subscribed. destruct (Nat.eq_dec c ws) as [->|Hne].
    + destruct Hwf as [Hnd _]. rewrite (Map_get_delete_eq ws clients Hnd).
      discriminate.
    + rewrite (Map_get_delete_neq ws c clients Hne). tauto.
Qed.

Lemma run_subscribed (evs : list Event) (clients : Clients) (c : WebSocket)
    (X : value) :
  wf clients ->
  subscribed (fst (run evs clients)) c X = true ->
  subscribed clients c X = true \/ existsb (joinFrom c X) evs = true.
Proof.
  revert clients. induction evs as [|ev rest IH]; intros clients Hwf.
  - simpl. tauto.
  - rewrite run_cons. simpl fst. intros H.
    destruct (IH _ (step_wf ev clients Hwf) H) as [H1|H1].
    + destruct (step_subscribed ev clients c X Hwf H1) as [H2|H2];
        [tauto|]. right. simpl. now rewrite H2.
    + right. simpl. rewrite H1. apply orb_true_r.
Qed.

(** X4: a subscription never appears by itself: if, in a registry reached
    from the empty one, socket [c] is subscribed to channel [X], then [c]
    itself has sent a [join_channel] frame for [X]. *)
Theorem subscription_comes_from_join (history : list Event) (c : WebSocket)
    (X : value) :
  subscribed (fst (run history JsMap.empty)) c X = true ->
  existsb (joinFrom c X) history = true.
Proof.
  intros H. destruct (run_subscribed history JsMap.empty c X wf_empty H)
    as [H0|H0]; [discriminate | exact H0].
Qed.

Lemma subscription_comes_from_join_witness :
  subscribed (fst (run threeJoined JsMap.empty)) 3 (Some (JNum 10)) = true /\
  existsb (joinFrom 3 (Some (JNum 10))) threeJoined = true.
Proof.
  split; [reflexivity|].
  exact (subscription_comes_from_join threeJoined 3 (Some (JNum 10))
           eq_refl).
Defined.

(** X5: [leave_channel] for a channel the socket is not subscribed to (or
    from a socket without entry) is a no-op: the registry is returned as it
    was and nothing is written. *)
Theorem leave_when_not_subscribed (readyState : WebSocket -> ReadyState)
    (C : WebSocket) (message : json) (clients : Clients) :
  prop message "type" = Some (JStr "leave_channel") ->
  subscribed clients C (prop message "channelId") = false ->
  onMessage readyState C (Parsed message) clients = (clients, []).
Proof.
  intros Ht Hsub. rewrite (onMessage_leave_channel _ _ _ _ Ht).
  unfold subscribed in Hsub.
  destruct (JsMap.get C clients) as [info|] eqn:G; [|reflexivity].
  rewrite (Set_delete_absent _ _ Hsub).
  destruct info as [u chs]. simpl. now rewrite (Map_set_same _ _ _ G).
Qed.

Lemma leave_when_not_subscribed_witness :
  prop (leaveMsg 11) "type" = Some (JStr "leave_channel") /\
  subscribed threeClients 1 (prop (leaveMsg 11) "channelId") = false /\
  onMessage allOpen 1 (Parsed (leaveMsg 11)) threeClients
  = (threeClients, []).
Proof.
  split; [reflexivity|]. split; [reflexivity|].
  exact (leave_when_not_subscribed allOpen 1 (leaveMsg 11) threeClients
           eq_refl eq_refl).
Defined.

(** X6: [join_channel] for a channel the socket is already subscribed to
    is a no-op: the set holds the channel once, the registry is returned as
    it was and nothing is written. *)
Theorem join_when_subscribed (readyState : WebSocket -> ReadyState)
    (C : WebSocket) (message : json) (clients : Clients) :
  prop message "type" = Some (JStr "join_channel") ->
  subscribed clients C (prop message "channelId") = true ->
  onMessage readyState C (Parsed message) clients = (clients, []).
Proof.
  intros Ht Hsub. rewrite (onMessage_join_channel _ _ _ _ Ht).
  unfold subscribed in Hsub.
  destruct (JsMap.get C clients) as [info|] eqn:G; [|discriminate].
  unfold JsSet.add. rewrite Hsub.
  destruct info as [u chs]. simpl. now rewrite (Map_set_same _ _ _ G).
Qed.

Lemma join_when_subscribed_witness :
  prop (joinMsg 10) "type" = Some (JStr "join_channel") /\
  subscribed threeClients 1 (prop (joinMsg 10) "channelId") = true /\
  onMessage allOpen 1 (Parsed (joinMsg 10)) threeClients
  = (threeClients, []).
Proof.
  split; [reflexivity|]. split; [reflexivity|].
  exact (join_when_subscribed allOpen 1 (joinMsg 10) threeClients
           eq_refl eq_refl).
Defined.

(** X7: the ['close'] handler is safe on a socket without entry and safe
    to run twice: for a socket that never registered it returns the
    registry as it was, and in a well-formed registry a second ['close']
    changes nothing the first one left. *)
Theorem close_is_idempotent (C : WebSocket) (clients : Clients) :
  (JsMap.get C clients = None -> fst (onClose C clients) = clients) /\
  (wf clients ->
   fst (onClose C (fst (onClose C clients))) = fst (onClose C clients)).
Proof.
  simpl. split.
  - apply Map_delete_absent.
  - intros [Hnd _]. apply Map_delete_absent.
    now apply Map_get_delete_eq.
Qed.

Lemma close_is_idempotent_witness :
  JsMap.get 4 threeClients = None /\
  wf threeClients /\
  fst (onClose 4 threeClients) = threeClients /\
  fst (onClose 1 (fst (onClose 1 threeClients)))
  = fst (onClose 1 threeClients).
Proof.
  split; [reflexivity|]. split; [exact wf_threeClients|]. split.
  - exact (proj1 (close_is_idempotent 4 threeClients) eq_refl).
  - exact (proj2 (close_is_idempotent 1 threeClients) wf_threeClients).
Defined.

(** X8: closing socket [C] takes nothing away from the others: every other
    socket keeps its entry, and a [new_message] or [typing] frame delivers
    to each other socket exactly what it would have delivered had [C]
    stayed. *)
Theorem close_leaves_others (readyState : WebSocket -> ReadyState)
    (C S c : WebSocket) (message : json) (frame : Frame)
    (clients : Clients) :
  wf clients ->
  c <> C ->
  broadcastFrame message = Some frame ->
  JsMap.get c (fst (onClose C clients)) = JsMap.get c clients /\
  deliveries c
    (snd (onMessage readyState S (Parsed message) (fst (onClose C clients))))
  = deliveries c (snd (onMessage readyState S (Parsed message) clients)).
Proof.
  intros Hwf Hc Hb. pose proof (wf_delete C clients Hwf) as [Hnd' _].
  destruct Hwf as [Hnd _]. simpl fst.
  pose proof (Map_get_delete_neq C c clients Hc) as Hget.
  split; [exact Hget|].
  rewrite !(onMessage_broadcast _ _ _ _ _ Hb). simpl snd.
  rewrite !deliveries_fanout by assumption.
  unfold subscribed. now rewrite Hget.
Qed.

Lemma close_leaves_others_witness :
  wf threeClients /\ 2 <> 3 /\
  deliveries 2
    (snd (onMessage allOpen 1 (Parsed (newMessageMsg 10 hi))
            (fst (onClose 3 threeClients))))
  = deliveries 2
      (snd (onMessage allOpen 1 (Parsed (newMessageMsg 10 hi))
              threeClients)).
Proof.
  assert (2 <> 3) as H by lia.
  split; [exact wf_threeClients|]. split; [exact H|].
  exact (proj2 (close_leaves_others allOpen 3 1 2 (newMessageMsg 10 hi)
                  (NewMessageFrame (Some hi)) threeClients
                  wf_threeClients H eq_refl)).
Defined.

(** X9: joining or leaving channel [X] does not touch any other channel:
    for every channel [Y] that is not SameValueZero to [X] and every socket
    [c], [c] is subscribed to [Y] after the frame exactly if it was
    before. *)
Theorem other_channels_untouched (readyState : WebSocket -> ReadyState)
    (ws c : WebSocket) (message : json) (Y : value) (clients : Clients) :
  prop message "type" = Some (JStr "join_channel") \/
  prop message "type" = Some (JStr "leave_channel") ->
  sameValueZero Y (prop message "channelId") = false ->
  subscribed (fst (onMessage readyState ws (Parsed message) clients)) c Y
  = subscribed clients c Y.
Proof.
  intros Ht Hy. unfold subscribed.
  destruct (Nat.eq_dec c ws) as [->|Hne].
  2:{ now rewrite (onMessage_get_other _ _ _ _ _ Hne). }
  destruct Ht as [Ht|Ht];
    [rewrite (onMessage_join_channel _ _ _ _ Ht)
    |rewrite (onMessage_leave_channel _ _ _ _ Ht)];
    (destruct (JsMap.get ws clients) as [info|] eqn:G; simpl fst;
     [rewrite Map_get_set_eq; simpl | now rewrite G]).
  - now apply Set_has_add_other.
  - now apply Set_has_delete_other.
Qed.

Lemma other_channels_untouched_witness :
  (prop (leaveMsg 11) "type" = Some (JStr "join_channel") \/
   prop (leaveMsg 11) "type" = Some (JStr "leave_channel")) /\
  sameValueZero (Some (JNum 10)) (prop (leaveMsg 11) "channelId") = false /\
  subscribed (fst (onMessage allOpen 1 (Parsed (leaveMsg 11)) threeClients))
             1 (Some (JNum 10)) = true.
Proof.
  split; [right; reflexivity|]. split; [reflexivity|].
  exact (eq_trans
    (other_channels_untouched allOpen 1 1 (leaveMsg 11) (Some (JNum 10))
       threeClients (or_intror eq_refl) eq_refl) eq_refl).
Defined.

Lemma sameValueZero_nonprimitive (x y : value) :
  primitive y = false -> sameValueZero x y = false.
Proof.
  destruct y as [[| b | n | t | l | ms]|]; try discriminate; intros _;
    now destruct x as [[| b' | n' | t' | l' | ms']|].
Qed.

(** X10: a [join_channel] frame whose [channelId] is an array or an object
    subscribes the socket to nothing, since no later frame can carry the
    same reference: for every channel id the socket is subscribed after the
    frame exactly if it was before.  Yet every such frame from a registered
    socket makes that socket's set one element longer. *)
Theorem join_with_reference_id (readyState : WebSocket -> ReadyState)
    (C : WebSocket) (message : json) (info : ClientInfo)
    (clients : Clients) :
  prop message "type" = Some (JStr "join_channel") ->
  primitive (prop message "channelId") = false ->
  JsMap.get C clients = Some info ->
  let after := fst (onMessage readyState C (Parsed message) clients) in
  option_map (fun i => List.length (channels i)) (JsMap.get C after)
  = Some (S (List.length (channels info))) /\
  (forall X, subscribed after C X = subscribed clients C X).
Proof.
  intros Ht Hx Hget. cbv zeta.
  rewrite (onMessage_join_channel _ _ _ _ Ht), Hget. simpl fst.
  split.
  - rewrite Map_get_set_eq. simpl. unfold JsSet.add.
    rewrite (Set_has_nonprimitive _ _ Hx), length_app. simpl.
    f_equal. lia.
  - intros X. unfold subscribed. rewrite Map_get_set_eq, Hget. simpl.
    apply Set_has_add_other. now apply sameValueZero_nonprimitive.
Qed.

Lemma join_with_reference_id_witness :
  let message :=
    JObj [("type", JStr "join_channel"); ("channelId", JArr [JNum 10])] in
  prop message "type" = Some (JStr "join_channel") /\
  primitive (prop message "channelId") = false /\
  option_map (fun i => List.length (channels i))
    (JsMap.get 1 (fst (onMessage allOpen 1 (Parsed message) threeClients)))
  = Some 2.
Proof.
  cbv zeta. split; [reflexivity|]. split; [reflexivity|].
  exact (proj1
    (join_with_reference_id allOpen 1
       (JObj [("type", JStr "join_channel"); ("channelId", JArr [JNum 10])])
       {| userId := Some (JNum 1); channels := [Some (JNum 10)] |}
       threeClients eq_refl eq_refl eq_refl)).
Defined.

(** * The message range of the notes generator *)

Lemma findIndex_range {A : Type} (pred : A -> bool) (arr : list A) :
  (-1 <= findIndex pred arr < Z.of_nat (List.length arr))%Z.
Proof.
  induction arr as [|x rest IH]; simpl List.length; simpl findIndex; [lia|].
  destruct (pred x); [lia|].
  destruct (Z.eqb_spec (findIndex pred rest) (-1)); lia.
Qed.

Lemma findIndex_none {A : Type} (pred : A -> bool) (arr : list A) :
  findIndex pred arr = (-1)%Z <-> forallb (fun x => negb (pred x)) arr = true.
Proof.
  induction arr as [|x rest IH]; simpl; [tauto|].
  pose proof (findIndex_range pred rest) as Hr.
  destruct (pred x); simpl.
  - split; [lia | discriminate].
  - destruct (Z.eqb_spec (findIndex pred rest) (-1)) as [E|E].
    + rewrite <- IH. tauto.
    + rewrite <- IH. split; [lia | tauto].
Qed.

Lemma findIndex_first {A : Type} (pred : A -> bool) (pre : list A) (x : A)
    (post : list A) :
  forallb (fun y => negb (pred y)) pre = true ->
  pred x = true ->
  findIndex pred (pre ++ x :: post) = Z.of_nat (List.length pre).
Proof.
  intros Hpre Hx. induction pre as [|y pre IH]; simpl.
  - now rewrite Hx.
  - simpl in Hpre. apply andb_true_iff in Hpre. destruct Hpre as [Hy Hpre].
    apply negb_true_iff in Hy. rewrite Hy, (IH Hpre).
    destruct (Z.eqb_spec (Z.of_nat (List.length pre)) (-1)); lia.
Qed.

Lemma slice_segment {A : Type} (arr : list A) (start stop : Z) :
  exists pre post, arr = pre ++ slice arr start stop ++ post.
Proof.
  unfold slice. cbv zeta.
  match goal with
  | |- context [firstn ?n (skipn ?k arr)] =>
      exists (firstn k arr), (skipn n (skipn k arr));
      now rewrite (firstn_skipn n (skipn k arr)), firstn_skipn
  end.
Qed.

Lemma slice_middle {A : Type} (pre seg post : list A) :
  slice (pre ++ seg ++ post) (Z.of_nat (List.length pre))
        (Z.of_nat (List.length pre + List.length seg)) = seg.
Proof.
  unfold slice. rewrite !length_app.
  destruct (Z.ltb_spec (Z.of_nat (List.length pre)) 0); [lia|].
  destruct (Z.ltb_spec (Z.of_nat (List.length pre + List.length seg)) 0);
    [lia|].
  replace (Z.to_nat (Z.min (Z.of_nat (List.length pre)) _))
    with (List.length pre) by lia.
  replace (Z.to_nat _) with (List.length seg) by lia.
  rewrite skipn_app, skipn_all, Nat.sub_diag. simpl.
  rewrite firstn_app, firstn_all, Nat.sub_diag. simpl.
  apply app_nil_r.
Qed.

Lemma slice_empty {A : Type} (arr : list A) (start stop : Z) :
  (0 <= stop <= start)%Z -> slice arr start stop = [].
Proof.
  intros H. unfold slice.
  destruct (Z.ltb_spec start 0); [lia|].
  destruct (Z.ltb_spec stop 0); [lia|].
  replace (Z.to_nat _) with 0 by lia. reflexivity.
Qed.

Section GenerateNotesFacts.

Variable Message : Type.
Variable id : Message -> Z.

(** X11: the messages handed to the notes generator are always one
    contiguous run of the channel's messages, in their order: nothing is
    invented, repeated or reordered, whatever ids the request carries. *)
Theorem filteredMessages_is_segment (messages : list Message)
    (startMessageId endMessageId : value) :
  exists pre post,
    messages =
    pre ++ filteredMessages Message id messages startMessageId endMessageId
        ++ post.
Proof.
  unfold filteredMessages.
  destruct (truthy startMessageId && truthy endMessageId);
    [|exists [], []; now rewrite app_nil_r].
  destruct (negb _ && negb _);
    [apply slice_segment | exists [], []; now rewrite app_nil_r].
Qed.

Lemma no_id_forallb (n : Z) (l : list Message) :
  ~ In n (List.map id l) ->
  forallb (fun m => negb (strictEqNum (id m) (Some (JNum n)))) l = true.
Proof.
  induction l as [|m rest IH]; intros H; [reflexivity|].
  cbn [forallb List.map In] in *. rewrite IH by tauto.
  rewrite andb_true_r. apply negb_true_iff. apply Z.eqb_neq. tauto.
Qed.

(** X12: when both ids are non-zero numbers and the first message with id
    [a] comes no later than the first message with id [b], the selection
    runs from that first [a]-message to that first [b]-message, both
    included. *)
Theorem filteredMessages_range (a b : Z) (pre mid post : list Message)
    (ma mb : Message) :
  a <> 0%Z -> b <> 0%Z ->
  id ma = a -> id mb = b ->
  ~ In a (List.map id pre) ->
  ~ In b (List.map id (pre ++ ma :: mid)) ->
  filteredMessages Message id (pre ++ ma :: mid ++ mb :: post)
                   (Some (JNum a)) (Some (JNum b))
  = ma :: mid ++ [mb].
Proof.
  intros Ha Hb Hma Hmb Hpre Hmid.
  assert (findIndex (fun m => strictEqNum (id m) (Some (JNum a)))
            (pre ++ ma :: mid ++ mb :: post)
          = Z.of_nat (List.length pre)) as Hs.
  { apply findIndex_first; [now apply no_id_forallb|].
    simpl. subst a. apply Z.eqb_refl. }
  assert (findIndex (fun m => strictEqNum (id m) (Some (JNum b)))
            (pre ++ ma :: mid ++ mb :: post)
          = Z.of_nat (List.length (pre ++ ma :: mid))) as He.
  { replace (pre ++ ma :: mid ++ mb :: post)
      with ((pre ++ ma :: mid) ++ mb :: post)
      by (rewrite <- app_assoc; reflexivity).
    apply findIndex_first; [now apply no_id_forallb|].
    simpl. subst b. apply Z.eqb_refl. }
  unfold filteredMessages. cbv zeta. rewrite Hs, He. simpl truthy.
  apply Z.eqb_neq in Ha, Hb. rewrite Ha, Hb. simpl andb.
  destruct (Z.eqb_spec (Z.of_nat (List.length pre)) (-1)); [lia|].
  destruct (Z.eqb_spec (Z.of_nat (List.length (pre ++ ma :: mid))) (-1));
    [lia|]. simpl andb. cbv iota.
  replace (pre ++ ma :: mid ++ mb :: post)
    with (pre ++ (ma :: mid ++ [mb]) ++ post)
    by (simpl; rewrite <- app_assoc; reflexivity).
  replace (Z.of_nat (List.length (pre ++ ma :: mid)) + 1)%Z
    with (Z.of_nat (List.length pre + List.length (ma :: mid ++ [mb])))
    by (simpl; rewrite !length_app; simpl; lia).
  apply slice_middle.
Qed.

(** X13: when the first message with id [b] comes strictly before the
    first message with id [a], the request [startMessageId = a],
    [endMessageId = b] selects no message at all (not the whole channel). *)
Theorem filteredMessages_reversed (a b : Z) (pre mid post : list Message)
    (ma mb : Message) :
  a <> 0%Z -> b <> 0%Z ->
  id ma = a -> id mb = b ->
  ~ In b (List.map id pre) ->
  ~ In a (List.map id (pre ++ mb :: mid)) ->
  filteredMessages Message id (pre ++ mb :: mid ++ ma :: post)
                   (Some (JNum a)) (Some (JNum b))
  = [].
Proof.
  intros Ha Hb Hma Hmb Hpre Hmid.
  assert (findIndex (fun m => strictEqNum (id m) (Some (JNum b)))
            (pre ++ mb :: mid ++ ma :: post)
          = Z.of_nat (List.length pre)) as He.
  { apply findIndex_first; [now apply no_id_forallb|].
    simpl. subst b. apply Z.eqb_refl. }
  assert (findIndex (fun m => strictEqNum (id m) (Some (JNum a)))
            (pre ++ mb :: mid ++ ma :: post)
          = Z.of_nat (List.length (pre ++ mb :: mid))) as Hs.
  { replace (pre ++ mb :: mid ++ ma :: post)
      with ((pre ++ mb :: mid) ++ ma :: post)
      by (rewrite <- app_assoc; reflexivity).
    apply findIndex_first; [now apply no_id_forallb|].
    simpl. subst a. apply Z.eqb_refl. }
  unfold filteredMessages. cbv zeta. rewrite Hs, He. simpl truthy.
  apply Z.eqb_neq in Ha, Hb. rewrite Ha, Hb. simpl andb.
  destruct (Z.eqb_spec (Z.of_nat (List.length (pre ++ mb :: mid))) (-1));
    [lia|].
  destruct (Z.eqb_spec (Z.of_nat (List.length pre)) (-1)); [lia|].
  simpl andb. cbv iota. rewrite length_app. simpl List.length.
  apply slice_empty. lia.
Qed.

(** X14: the whole channel is handed over when an id is missing from the
    request, is falsy ([0], [null], the empty string, [false]), is not a
    number, or matches no message. *)
Theorem filteredMessages_unfiltered (messages : list Message)
    (startMessageId endMessageId : value) :
  truthy startMessageId = false \/ truthy endMessageId = false \/
  forallb (fun m => negb (strictEqNum (id m) startMessageId)) messages = true
  \/
  forallb (fun m => negb (strictEqNum (id m) endMessageId)) messages = true ->
  filteredMessages Message id messages startMessageId endMessageId = messages.
Proof.
  intros H. unfold filteredMessages.
  destruct (truthy startMessageId) eqn:Es; [|reflexivity].
  destruct (truthy endMessageId) eqn:Ee; [|reflexivity]. simpl andb.
  destruct H as [H|[H|[H|H]]]; try discriminate;
    apply findIndex_none in H; rewrite H; simpl;
    [reflexivity | now rewrite andb_false_r].
Qed.

End GenerateNotesFacts.

Lemma filteredMessages_range_witness :
  filteredMessages Z (fun m => m) [4; 5; 6; 7; 8]%Z
                   (Some (JNum 5)) (Some (JNum 7)) = [5; 6; 7]%Z.
Proof.
  refine (filteredMessages_range Z (fun m => m) 5 7 [4%Z] [6%Z] [8%Z] 5%Z 7%Z
            _ _ eq_refl eq_refl _ _); simpl; lia.
Defined.

Lemma filteredMessages_reversed_witness :
  filteredMessages Z (fun m => m) [4; 5; 6; 7; 8]%Z
                   (Some (JNum 7)) (Some (JNum 5)) = [].
Proof.
  refine (filteredMessages_reversed Z (fun m => m) 7 5 [4%Z] [6%Z] [8%Z]
            7%Z 5%Z _ _ eq_refl eq_refl _ _); simpl; lia.
Defined.

Lemma filteredMessages_unfiltered_witness :
  filteredMessages Z (fun m => m) [4; 5; 6]%Z (Some (JNum 0)) (Some (JNum 6))
  = [4; 5; 6]%Z /\
  filteredMessages Z (fun m => m) [4; 5; 6]%Z (Some (JStr "5"))
                   (Some (JNum 6))
  = [4; 5; 6]%Z.
Proof.
  split.
  - exact (filteredMessages_unfiltered Z (fun m => m) [4; 5; 6]%Z
             (Some (JNum 0)) (Some (JNum 6)) (or_introl eq_refl)).
  - exact (filteredMessages_unfiltered Z (fun m => m) [4; 5; 6]%Z
             (Some (JStr "5")) (Some (JNum 6))
             (or_intror (or_intror (or_introl eq_refl)))).
Defined.

(** * The sources of an organisational-memory answer *)

Section SourceMaps.

Import OrgMemory.

Lemma Src_get_set_eq (k : string) (v : SourceData) (m : SourceMap) :
  get k (set k v m) = Some v.
Proof.
  induction m as [|[k' v'] rest IH]; simpl.
  - now rewrite String.eqb_refl.
  - destruct (String.eqb k' k) eqn:E; simpl.
    + now rewrite String.eqb_refl.
    + now rewrite E.
Qed.

Lemma Src_get_set_neq (k k' : string) (v : SourceData) (m : SourceMap) :
  k' <> k -> get k' (set k v m) = get k' m.
Proof.
  intros Hne. induction m as [|[k0 v0] rest IH]; simpl.
  - apply String.eqb_neq in Hne. rewrite String.eqb_sym. now rewrite Hne.
  - destruct (String.eqb k0 k) eqn:E; simpl.
    + apply String.eqb_eq in E. subst k0.
      assert (String.eqb k k' = false) as ->
        by (apply String.eqb_neq; congruence).
      reflexivity.
    + now rewrite IH.
Qed.

Lemma Src_set_set (k : string) (v1 v2 : SourceData) (m : SourceMap) :
  set k v2 (set k v1 m) = set k v2 m.
Proof.
  induction m as [|[k' v'] rest IH]; simpl.
  - now rewrite String.eqb_refl.
  - destruct (String.eqb k' k) eqn:E; simpl.
    + now rewrite String.eqb_refl.
    + now rewrite E, IH.
Qed.

Lemma Src_get_None (k : string) (m : SourceMap) :
  get k m = None <-> ~ In k (List.map fst m).
Proof.
  induction m as [|[k' v'] rest IH]; simpl.
  - tauto.
  - destruct (String.eqb k' k) eqn:E.
    + apply String.eqb_eq in E. split; [discriminate | tauto].
    + apply String.eqb_neq in E. rewrite IH. tauto.
Qed.

Lemma Src_get_In (k : string) (v : SourceData) (m : SourceMap) :
  get k m = Some v -> In (k, v) m.
Proof.
  induction m as [|[k' v'] rest IH]; simpl; [discriminate|].
  destruct (String.eqb k' k) eqn:E.
  - apply String.eqb_eq in E. intros [= ->]. subst. now left.
  - intros H. right. now apply IH.
Qed.

Lemma Src_In_get (k : string) (v : SourceData) (m : SourceMap) :
  NoDup (List.map fst m) -> In (k, v) m -> get k m = Some v.
Proof.
  induction m as [|[k' v'] rest IH]; simpl; [tauto|]. intros Hnd [H|H].
  - injection H as -> ->. now rewrite String.eqb_refl.
  - inversion Hnd as [|? ? Hnotin Hrest]; subst.
    destruct (String.eqb k' k) eqn:E; [|now apply IH].
    apply String.eqb_eq in E. subst k'. exfalso. apply Hnotin.
    apply in_map_iff. now exists (k, v).
Qed.

Lemma Src_keys_set (k k' : string) (v : SourceData) (m : SourceMap) :
  In k' (List.map fst (set k v m)) <-> k' = k \/ In k' (List.map fst m).
Proof.
  induction m as [|[k0 v0] rest IH]; simpl.
  - intuition congruence.
  - destruct (String.eqb k0 k) eqn:E; simpl.
    + apply String.eqb_eq in E. subst k0. intuition congruence.
    + rewrite IH. intuition congruence.
Qed.

Lemma Src_NoDup_set (k : string) (v : SourceData) (m : SourceMap) :
  NoDup (List.map fst m) -> NoDup (List.map fst (set k v m)).
Proof.
  induction m as [|[k0 v0] rest IH]; simpl; intros Hnd.
  - constructor; [simpl; tauto | constructor].
  - inversion Hnd as [|? ? Hnotin Hrest]; subst.
    destruct (String.eqb k0 k) eqn:E; simpl.
    + apply String.eqb_eq in E. subst k0. now constructor.
    + apply String.eqb_neq in E. constructor; [|now apply IH].
      intros Hin. apply Src_keys_set in Hin. destruct Hin; [congruence|].
      contradiction.
Qed.

Lemma gt_irrefl (a : string) : gt a a = false.
Proof.
  unfold gt, String.ltb. pose proof (String.compare_antisym a a) as H.
  destruct (String.compare a a); simpl in H; congruence.
Qed.

Lemma leb_refl (a : string) : String.leb a a = true.
Proof.
  unfold String.leb. pose proof (String.compare_antisym a a) as H.
  destruct (String.compare a a); simpl in H; congruence.
Qed.

Lemma leb_of_not_gt (a b : string) : gt a b = false -> String.leb a b = true.
Proof.
  unfold gt, String.ltb, String.leb. rewrite (String.compare_antisym a b).
  now destruct (String.compare b a).
Qed.

Lemma leb_below_gt (x a b : string) :
  String.leb x b = true -> gt a b = true -> String.leb x a = true.
Proof.
  unfold gt, String.ltb, String.leb. intros Hxb Hba.
  destruct (String.compare b a) eqn:Eba; try discriminate.
  apply String_as_OT.cmp_lt in Eba.
  destruct (String.compare x b) eqn:Exb; try discriminate.
  - apply String.compare_eq_iff in Exb. subst x.
    apply String_as_OT.cmp_lt in Eba. unfold String_as_OT.cmp in Eba.
    now rewrite Eba.
  - apply String_as_OT.cmp_lt in Exb.
    pose proof (String_as_OT.lt_trans _ _ _ Exb Eba) as Hxa.
    apply String_as_OT.cmp_lt in Hxa. unfold String_as_OT.cmp in Hxa.
    now rewrite Hxa.
Qed.

(** The callback never throws, and computes [step]. *)
Lemma visit_step (sc : SourceMap) (msg : RelevantMessage) :
  visit sc msg = Some (step sc msg).
Proof.
  unfold visit, step, has.
  destruct (get (channelName msg) sc) as [d|] eqn:G; simpl negb; cbv iota.
  - rewrite G. cbv zeta. rewrite !Src_get_set_eq. simpl.
    destruct (gt (timestamp msg) (lastUpdate d)); [|reflexivity].
    now rewrite Src_set_set.
  - cbv zeta. rewrite !Src_get_set_eq. simpl.
    rewrite gt_irrefl. now rewrite Src_set_set.
Qed.

Lemma forEach_fold (msgs : list RelevantMessage) (sc : SourceMap) :
  forEach msgs sc = Some (fold_left step msgs sc).
Proof.
  revert sc. induction msgs as [|m rest IH]; intros sc; [reflexivity|].
  simpl. now rewrite visit_step, IH.
Qed.

Lemma inChannel_snoc (name : string) (msgs : list RelevantMessage)
    (m : RelevantMessage) :
  inChannel name (msgs ++ [m]) =
  inChannel name msgs ++ (if String.eqb (channelName m) name then [m] else []).
Proof. unfold inChannel. now rewrite filter_app. Qed.

(** What [sourceChannels] holds after the loop over [msgs]. *)
Lemma aggregate_invariant (msgs : list RelevantMessage) :
  let sc := fold_left step msgs [] in
  NoDup (List.map fst sc) /\
  (forall name, get name sc = None -> inChannel name msgs = []) /\
  (forall name d,
     get name sc = Some d ->
     count d = List.length (inChannel name msgs) /\
     (forall m, In m (inChannel name msgs) ->
                String.leb (timestamp m) (lastUpdate d) = true) /\
     (exists m, In m (inChannel name msgs) /\ timestamp m = lastUpdate d)).
Proof.
  cbv zeta. induction msgs as [|m msgs IH] using rev_ind.
  - simpl. split; [constructor|]. split; [reflexivity | discriminate].
  - destruct IH as (Hnd & Hnone & Hsome). rewrite fold_left_app. simpl.
    set (sc := fold_left step msgs []) in *.
    assert (forall name, name <> channelName m ->
              get name (step sc m) = get name sc) as Hother.
    { intros name Hne. unfold step.
      destruct (get (channelName m) sc); now apply Src_get_set_neq. }
    assert (forall name, name <> channelName m ->
              inChannel name (msgs ++ [m]) = inChannel name msgs) as Hin.
    { intros name Hne. rewrite inChannel_snoc.
      assert (String.eqb (channelName m) name = false) as ->
        by (apply String.eqb_neq; congruence).
      apply app_nil_r. }
    split; [|split].
    + unfold step. destruct (get (channelName m) sc);
        now apply Src_NoDup_set.
    + intros name Hget.
      destruct (string_dec name (channelName m)) as [->|Hne].
      * exfalso. revert Hget. unfold step.
        destruct (get (channelName m) sc); rewrite Src_get_set_eq;
          discriminate.
      * rewrite Hin by exact Hne. apply Hnone.
        now rewrite <- Hother.
    + intros name d Hget.
      destruct (string_dec name (channelName m)) as [->|Hne].
      2:{ rewrite Hin by exact Hne. apply Hsome. now rewrite <- Hother. }
      rewrite inChannel_snoc, String.eqb_refl. revert Hget. unfold step.
      destruct (get (channelName m) sc) as [d0|] eqn:G;
        rewrite Src_get_set_eq; intros [= <-]; simpl.
      * destruct (Hsome _ _ G) as (Hc & Hmax & (w & Hw & Hwt)).
        split; [rewrite length_app; simpl; lia|].
        destruct (gt (timestamp m) (lastUpdate d0)) eqn:Egt.
        -- split.
           ++ intros x Hx. apply in_app_iff in Hx. destruct Hx as [Hx|Hx].
              ** exact (leb_below_gt _ _ _ (Hmax x Hx) Egt).
              ** destruct Hx as [<-|[]]. apply leb_refl.
           ++ exists m. split; [|reflexivity].
              apply in_app_iff. right. now left.
        -- split.
           ++ intros x Hx. apply in_app_iff in Hx. destruct Hx as [Hx|Hx].
              ** exact (Hmax x Hx).
              ** destruct Hx as [<-|[]]. now apply leb_of_not_gt.
           ++ exists w. split; [|exact Hwt]. apply in_app_iff. now left.
      * rewrite (Hnone _ G). simpl. split; [reflexivity|]. split.
        -- intros x [<-|[]]. apply leb_refl.
        -- exists m. split; [now left | reflexivity].
Qed.

Lemma step_total_count (sc : SourceMap) (m : RelevantMessage) :
  list_sum (List.map (fun e => count (snd e)) (step sc m))
  = S (list_sum (List.map (fun e => count (snd e)) sc)).
Proof.
  unfold step. destruct (get (channelName m) sc) as [d|] eqn:G.
  - revert G. induction sc as [|[k v] rest IH]; simpl; [discriminate|].
    destruct (String.eqb k (channelName m)).
    + intros [= ->]. simpl. lia.
    + intros G. simpl. rewrite (IH G). lia.
  - revert G. induction sc as [|[k v] rest IH]; simpl; [reflexivity|].
    destruct (String.eqb k (channelName m)); [discriminate|].
    intros G. simpl. rewrite (IH G). lia.
Qed.

Lemma aggregate_total_count (msgs : list RelevantMessage) :
  list_sum (List.map (fun e => count (snd e)) (fold_left step msgs []))
  = List.length msgs.
Proof.
  induction msgs as [|m msgs IH] using rev_ind; [reflexivity|].
  rewrite fold_left_app. simpl. rewrite step_total_count, IH, length_app.
  simpl. lia.
Qed.

Lemma sources_eq (q : string) (msgs : list RelevantMessage) (result : json) :
  result <> JNull ->
  sources (queryOrgMemory q msgs (Result result))
  = List.map toSource (fold_left step msgs []).
Proof.
  intros Hr. unfold queryOrgMemory. rewrite forEach_fold.
  destruct result; try reflexivity. congruence.
Qed.

Lemma inChannel_In (name : string) (msgs : list RelevantMessage)
    (m : RelevantMessage) :
  In m (inChannel name msgs) <-> In m msgs /\ channelName m = name.
Proof.
  unfold inChannel. rewrite filter_In. now rewrite String.eqb_eq.
Qed.

End SourceMaps.

Lemma json_null_dec (j : json) : {j = JNull} + {j <> JNull}.
Proof. destruct j; [now left | right; discriminate ..]. Defined.

Example threeMessages_sources :
  OrgMemory.sources
    (OrgMemory.queryOrgMemory "q" threeMessages (OrgMemory.Result (JObj [])))
  = [ OrgMemory.mkSource "general" 2 "2024-01-03T08:30:00.000Z";
      OrgMemory.mkSource "dev" 1 "2024-01-01T09:00:00.000Z" ].
Proof. reflexivity. Qed.

Lemma JObj_not_null (ms : list (string * json)) : JObj ms <> JNull.
Proof. discriminate. Defined.

Section OrgMemoryAnswers.

Import OrgMemory.

Variable q : string.
Variable msgs : list RelevantMessage.
Variable result : json.
Hypothesis result_not_null : result <> JNull.

Lemma source_entry (s : Source) :
  In s (sources (queryOrgMemory q msgs (Result result))) ->
  exists d, get (sourceName s) (fold_left step msgs []) = Some d /\
            messageCount s = count d /\ sourceLastUpdate s = lastUpdate d.
Proof.
  rewrite (sources_eq q msgs result result_not_null). intros Hin.
  apply in_map_iff in Hin. destruct Hin as ([k d] & <- & Hin).
  exists d. simpl. split; [|tauto].
  apply Src_In_get; [|exact Hin]. apply (aggregate_invariant msgs).
Qed.

(** X15: when the model's reply decodes, the [messageCount]s of the
    sources add up to the number of messages given, and each source counts
    exactly the messages of its channel, which are at least one. *)
Theorem sources_count_messages :
  let srcs := sources (queryOrgMemory q msgs (Result result)) in
  list_sum (List.map messageCount srcs) = List.length msgs /\
  forall s, In s srcs ->
    messageCount s = List.length (inChannel (sourceName s) msgs) /\
    1 <= messageCount s.
Proof.
  cbv zeta. split.
  - rewrite (sources_eq q msgs result result_not_null), map_map.
    apply aggregate_total_count.
  - intros s Hs. destruct (source_entry s Hs) as (d & G & Hc & _).
    destruct (aggregate_invariant msgs) as (_ & _ & Hsome).
    destruct (Hsome _ _ G) as (Hcount & _ & (w & Hw & _)).
    rewrite Hc, Hcount. split; [reflexivity|].
    destruct (inChannel (sourceName s) msgs); [destruct Hw | simpl; lia].
Qed.

Lemma sources_names_occur (name : string) :
  In name (List.map sourceName
             (sources (queryOrgMemory q msgs (Result result)))) ->
  exists m, In m msgs /\ channelName m = name.
Proof.
  rewrite (sources_eq q msgs result result_not_null), map_map. simpl.
  change (fun x : string * SourceData => fst x) with (@fst string SourceData).
  destruct (aggregate_invariant msgs) as (_ & _ & Hsome). intros Hin.
  destruct (get name (fold_left step msgs [])) as [d|] eqn:G.
  - destruct (Hsome _ _ G) as (_ & _ & (w & Hw & _)).
    apply inChannel_In in Hw. now exists w.
  - apply Src_get_None in G. contradiction.
Qed.

(** X16: when the model's reply decodes, the sources name every channel
    that occurs among the messages, each once, and no other. *)
Theorem sources_name_each_channel_once :
  let srcs := sources (queryOrgMemory q msgs (Result result)) in
  NoDup (List.map sourceName srcs) /\
  forall name,
    In name (List.map sourceName srcs) <->
    exists m, In m msgs /\ channelName m = name.
Proof.
  cbv zeta. rewrite (sources_eq q msgs result result_not_null), map_map.
  simpl. change (fun x : string * SourceData => fst x) with
    (@fst string SourceData).
  destruct (aggregate_invariant msgs) as (Hnd & Hnone & Hsome).
  split; [exact Hnd|]. intros name. split.
  - intros Hin.
    destruct (get name (fold_left step msgs [])) as [d|] eqn:G.
    + destruct (Hsome _ _ G) as (_ & _ & (w & Hw & _)).
      apply inChannel_In in Hw. now exists w.
    + apply Src_get_None in G. contradiction.
  - intros (m & Hm & Hname).
    destruct (in_dec string_dec name
                (List.map fst (fold_left step msgs []))) as [H|H];
      [exact H|].
    apply Src_get_None in H. apply Hnone in H.
    assert (In m (inChannel name msgs)) as Hin
      by (apply inChannel_In; tauto).
    rewrite H in Hin. destruct Hin.
Qed.

(** X17: when the model's reply decodes, the [lastUpdate] of a source is
    the greatest timestamp, in string order, among the messages of its
    channel: it is the timestamp of one of them and none has a greater
    one. *)
Theorem sources_lastUpdate_is_latest (s : Source) :
  In s (sources (queryOrgMemory q msgs (Result result))) ->
  (forall m, In m msgs -> channelName m = sourceName s ->
             String.leb (timestamp m) (sourceLastUpdate s) = true) /\
  (exists m, In m msgs /\ channelName m = sourceName s /\
             timestamp m = sourceLastUpdate s).
Proof.
  intros Hs. destruct (source_entry s Hs) as (d & G & _ & Hl).
  destruct (aggregate_invariant msgs) as (_ & _ & Hsome).
  destruct (Hsome _ _ G) as (_ & Hmax & (w & Hw & Hwt)). rewrite Hl.
  split.
  - intros m Hm Hname. apply Hmax. apply inChannel_In. tauto.
  - exists w. apply inChannel_In in Hw. tauto.
Qed.

End OrgMemoryAnswers.

Lemma sources_count_messages_witness :
  JObj [] <> JNull /\
  list_sum (List.map OrgMemory.messageCount
    (OrgMemory.sources
       (OrgMemory.queryOrgMemory "q" threeMessages
          (OrgMemory.Result (JObj []))))) = 3.
Proof.
  split; [exact (JObj_not_null [])|].
  exact (proj1 (sources_count_messages "q" threeMessages (JObj [])
                  (JObj_not_null []))).
Defined.

Lemma sources_name_each_channel_once_witness :
  JObj [] <> JNull /\
  NoDup (List.map OrgMemory.sourceName
    (OrgMemory.sources
       (OrgMemory.queryOrgMemory "q" threeMessages
          (OrgMemory.Result (JObj []))))).
Proof.
  split; [exact (JObj_not_null [])|].
  exact (proj1 (sources_name_each_channel_once "q" threeMessages (JObj [])
                  (JObj_not_null []))).
Defined.

Lemma sources_lastUpdate_is_latest_witness :
  JObj [] <> JNull /\
  In (OrgMemory.mkSource "general" 2 "2024-01-03T08:30:00.000Z")
     (OrgMemory.sources
        (OrgMemory.queryOrgMemory "q" threeMessages
           (OrgMemory.Result (JObj [])))) /\
  (forall m, In m threeMessages ->
     OrgMemory.channelName m = "general" ->
     String.leb (OrgMemory.timestamp m) "2024-01-03T08:30:00.000Z" = true).
Proof.
  assert (In (OrgMemory.mkSource "general" 2 "2024-01-03T08:30:00.000Z")
     (OrgMemory.sources
        (OrgMemory.queryOrgMemory "q" threeMessages
           (OrgMemory.Result (JObj []))))) as Hin by (left; reflexivity).
  split; [exact (JObj_not_null [])|]. split; [exact Hin|].
  exact (proj1 (sources_lastUpdate_is_latest "q" threeMessages (JObj [])
                  (JObj_not_null []) _ Hin)).
Defined.

(** X18: whatever the model replies, [queryOrgMemory] returns an answer
    that echoes the query and whose [summary] and [keyPoints] are truthy
    values (never [null], [false], [0] or the empty string); when the
    request is rejected or the reply is [null], the answer lists no
    source. *)
Theorem answer_always_filled (q : string)
    (msgs : list OrgMemory.RelevantMessage) (reply : OrgMemory.Reply) :
  let answer := OrgMemory.queryOrgMemory q msgs reply in
  OrgMemory.query answer = q /\
  truthy (Some (OrgMemory.summary answer)) = true /\
  truthy (Some (OrgMemory.keyPoints answer)) = true /\
  (reply = OrgMemory.Rejected \/ reply = OrgMemory.Result JNull ->
   OrgMemory.sources answer = []).
Proof.
  assert (forall v d, truthy (Some d) = true ->
            truthy (Some (orElse v d)) = true) as Hor.
  { intros [j|] d Hd; unfold orElse; [|exact Hd].
    destruct (truthy (Some j)) eqn:E; [exact E | exact Hd]. }
  cbv zeta. unfold OrgMemory.queryOrgMemory.
  destruct reply as [|result]; [simpl; intuition|].
  rewrite forEach_fold.
  destruct result; simpl; repeat split; try reflexivity;
    try (apply Hor; reflexivity);
    intros [H|H]; try discriminate H; reflexivity.
Qed.

Lemma answer_always_filled_witness :
  OrgMemory.sources
    (OrgMemory.queryOrgMemory "q" threeMessages (OrgMemory.Result JNull))
  = [] /\
  truthy (Some (OrgMemory.summary
    (OrgMemory.queryOrgMemory "q" threeMessages
       (OrgMemory.Result (JObj [("summary", JStr "")]))))) = true.
Proof.
  split.
  - exact (proj2 (proj2 (proj2
      (answer_always_filled "q" threeMessages (OrgMemory.Result JNull))))
      (or_intror eq_refl)).
  - exact (proj1 (proj2
      (answer_always_filled "q" threeMessages
         (OrgMemory.Result (JObj [("summary", JStr "")]))))).
Defined.

Section OrgMemoryRoute.

Variable StoredMessage : Type.
Variable msgContent : StoredMessage -> string.
Variable msgChannel : StoredMessage -> option string.
Variable authorDisplayName : StoredMessage -> string.
Variable createdAtISO : StoredMessage -> string.

(** X19: for the messages the route [POST /api/ai/org-memory] hands to
    [queryOrgMemory], no source of the answer has an empty name: a message
    without channel, or in a channel with the empty name, is counted under
    ["Direct Message"]. *)
Theorem route_sources_are_named (q : string) (relevant : list StoredMessage)
    (reply : OrgMemory.Reply) :
  Forall (fun s => OrgMemory.sourceName s <> "")
    (OrgMemory.sources
       (OrgMemory.queryOrgMemory q
          (OrgMemory.formattedMessages StoredMessage msgContent msgChannel
             authorDisplayName createdAtISO relevant) reply)).
Proof.
  apply Forall_forall. intros s Hs.
  destruct reply as [|result]; [destruct Hs|].
  destruct (json_null_dec result) as [->|Hr].
  { unfold OrgMemory.queryOrgMemory in Hs. rewrite forEach_fold in Hs.
    destruct Hs. }
  assert (In (OrgMemory.sourceName s)
            (List.map OrgMemory.sourceName
               (OrgMemory.sources
                  (OrgMemory.queryOrgMemory q
                     (OrgMemory.formattedMessages StoredMessage msgContent
                        msgChannel authorDisplayName createdAtISO relevant)
                     (OrgMemory.Result result))))) as Hin
    by (apply in_map; exact Hs).
  destruct (sources_names_occur q _ result Hr _ Hin) as (m & Hm & Hname).
  unfold OrgMemory.formattedMessages in Hm. apply in_map_iff in Hm.
  destruct Hm as (stored & <- & _). simpl in Hname. rewrite <- Hname.
  unfold OrgMemory.channelNameOf.
  destruct (msgChannel stored) as [name|]; [|discriminate].
  destruct (String.eqb_spec name ""); [discriminate | assumption].
Qed.

End OrgMemoryRoute.

(** * The client components *)

Section Trim.

Import Client.

Lemma trimStart_nil_iff (s : JsString) :
  trimStart s = [] <-> forallb isWhiteSpace s = true.
Proof.
  induction s as [|c rest IH]; simpl; [tauto|].
  destruct (isWhiteSpace c); simpl; [exact IH|].
  split; discriminate.
Qed.

Lemma trimStart_head (s : JsString) (c : N) (rest : JsString) :
  trimStart s = c :: rest -> isWhiteSpace c = false.
Proof.
  induction s as [|x s IH]; simpl; [discriminate|].
  destruct (isWhiteSpace x) eqn:E; [exact IH|].
  now intros [= <- _].
Qed.

Lemma trimStart_decomp (s : JsString) :
  exists pre, s = pre ++ trimStart s /\ forallb isWhiteSpace pre = true.
Proof.
  induction s as [|c rest (pre & Hs & Hpre)]; simpl.
  - now exists [].
  - destruct (isWhiteSpace c) eqn:E.
    + exists (c :: pre). simpl. rewrite E, Hpre. split; [congruence|easy].
    + now exists [].
Qed.

Lemma trimStart_idem (s : JsString) : trimStart (trimStart s) = trimStart s.
Proof.
  destruct (trimStart s) as [|c rest] eqn:E; [reflexivity|].
  simpl. now rewrite (trimStart_head _ _ _ E).
Qed.

Lemma trimEnd_decomp (s : JsString) :
  exists post, s = trimEnd s ++ post /\ forallb isWhiteSpace post = true.
Proof.
  destruct (trimStart_decomp (rev s)) as (pre & Hs & Hpre).
  exists (rev pre). split.
  - unfold trimEnd. rewrite <- rev_app_distr, <- Hs.
    now rewrite rev_involutive.
  - rewrite forallb_forall in *. intros x Hx. apply Hpre.
    now apply in_rev.
Qed.

Lemma forallb_rev (f : N -> bool) (s : JsString) :
  forallb f (rev s) = forallb f s.
Proof.
  induction s as [|c rest IH]; [reflexivity|]. simpl.
  rewrite forallb_app, IH. simpl. rewrite andb_true_r. apply andb_comm.
Qed.

(** [trim] leaves nothing exactly when every code unit is white space. *)
Lemma trim_nil_iff (s : JsString) :
  trim s = [] <-> forallb isWhiteSpace s = true.
Proof.
  unfold trim, trimEnd. split.
  - intros H. apply (f_equal (@rev N)) in H. rewrite rev_involutive in H.
    simpl in H. apply trimStart_nil_iff in H. rewrite forallb_rev in H.
    destruct (trimStart s) as [|c rest] eqn:E;
      [now apply trimStart_nil_iff|].
    apply trimStart_head in E. simpl in H. now rewrite E in H.
  - intros H. apply trimStart_nil_iff in H. now rewrite H.
Qed.

Lemma trim_starts_clean (s : JsString) : trimStart (trim s) = trim s.
Proof.
  unfold trim. destruct (trimEnd_decomp (trimStart s)) as (post & Hs & _).
  destruct (trimEnd (trimStart s)) as [|c rest] eqn:E; [reflexivity|].
  simpl. rewrite Hs in *. simpl in Hs.
  destruct (trimStart s) as [|c' rest'] eqn:E'; [discriminate|].
  injection Hs as -> _. now rewrite (trimStart_head _ _ _ E').
Qed.

Lemma trim_ends_clean (s : JsString) :
  trimStart (rev (trim s)) = rev (trim s).
Proof.
  unfold trim, trimEnd. rewrite rev_involutive. apply trimStart_idem.
Qed.

Lemma trim_idem (s : JsString) : trim (trim s) = trim s.
Proof.
  unfold trim at 1. rewrite trim_starts_clean. unfold trimEnd.
  rewrite trim_ends_clean. apply rev_involutive.
Qed.

Lemma trim_first_last (s : JsString) (c : N) :
  (hd_error (trim s) = Some c -> isWhiteSpace c = false) /\
  (hd_error (rev (trim s)) = Some c -> isWhiteSpace c = false).
Proof.
  split; intros H.
  - pose proof (trim_starts_clean s) as E.
    destruct (trim s) as [|x rest]; [discriminate|].
    injection H as ->. now apply (trimStart_head _ _ _ E).
  - pose proof (trim_ends_clean s) as E.
    destruct (rev (trim s)) as [|x rest]; [discriminate|].
    injection H as ->. now apply (trimStart_head _ _ _ E).
Qed.

Lemma blank_iff (s : JsString) :
  blank s = forallb isWhiteSpace s.
Proof.
  unfold blank. destruct (forallb isWhiteSpace s) eqn:E.
  - apply trim_nil_iff in E. now rewrite E.
  - destruct (trim s) eqn:T; [|reflexivity].
    apply trim_nil_iff in T. congruence.
Qed.

End Trim.

Section TypingTimers.

Import Client.

Lemma filter_nothing {A : Type} (f : A -> bool) (l : list A) :
  (forall x, In x l -> f x = false) -> filter f l = [].
Proof.
  induction l as [|x rest IH]; [reflexivity|]. intros H. simpl.
  rewrite (H x (or_introl eq_refl)). apply IH. intros y Hy. apply H.
  now right.
Qed.

Lemma clearTimeout_pending (st : Timers) :
  timersInv st -> pending (clearTimeout st) = [].
Proof.
  intros [Hall _]. unfold clearTimeout.
  destruct (typingTimeoutRef st) as [i|] eqn:R.
  - simpl. apply filter_nothing. intros [k t] Hin.
    destruct (Hall k t Hin) as [Hk _]. simpl.
    assert (k = i) as -> by congruence. now rewrite Nat.eqb_refl.
  - destruct (pending st) as [|[j t] rest] eqn:P; [reflexivity|].
    destruct (Hall j t (or_introl eq_refl)) as [H _]. discriminate.
Qed.

Lemma timersInv_initial : timersInv initialTimers.
Proof. split; simpl; [tauto | lia]. Qed.

Lemma handleContentChange_pending (channelId : option Z) (user : bool)
    (value : JsString) (st : Timers) :
  timersInv st ->
  exists i,
    typingTimeoutRef (fst (handleContentChange channelId user value st))
    = Some i /\
    pending (fst (handleContentChange channelId user value st))
    = [(i, {| callback := DebouncedTone value; delay := 500 |})].
Proof.
  intros Hinv. unfold handleContentChange.
  assert (forall st1 out1,
    pending (clearTimeout st1) = [] ->
    exists i,
      typingTimeoutRef
        (fst (setTimeoutRef (DebouncedTone value) 500 (clearTimeout st1),
              SetContent value :: out1)) = Some i /\
      pending
        (fst (setTimeoutRef (DebouncedTone value) 500 (clearTimeout st1),
              SetContent value :: out1))
      = [(i, {| callback := DebouncedTone value; delay := 500 |})]) as Hk.
  { intros st1 out1 Hc. simpl. rewrite Hc. eexists. split; reflexivity. }
  pose proof (clearTimeout_pending st Hinv) as Hclear.
  destruct channelId as [c|]; [|now apply Hk].
  destruct (numTruthy (Some c) && user); [|now apply Hk].
  apply Hk. unfold clearTimeout at 1. simpl. rewrite Hclear. simpl.
  now rewrite Nat.eqb_refl.
Qed.

Lemma findTimer_In (i : nat) (l : list (nat * Timer)) (t : Timer) :
  findTimer i l = Some t -> In (i, t) l.
Proof.
  induction l as [|[j u] rest IH]; simpl; [discriminate|].
  destruct (Nat.eqb j i) eqn:E.
  - apply Nat.eqb_eq in E. intros [= ->]. subst. now left.
  - intros H. right. now apply IH.
Qed.

Lemma handleToneAnalysis_no_typing (text : JsString) (c : Z) (b : bool) :
  ~ In (SendTyping c b) (handleToneAnalysis text).
Proof.
  unfold handleToneAnalysis.
  destruct (Nat.ltb 10 (List.length (trim text))); simpl;
    intros [H|[]]; discriminate.
Qed.

Lemma uiStep_inv (ev : UiEvent) (st : Timers) :
  timersInv st ->
  timersInv (fst (uiStep ev st)) /\
  (forall c, In (SendTyping c false) (snd (uiStep ev st)) ->
             emptied ev = true).
Proof.
  intros Hinv. destruct ev as [channelId user value | i]; simpl.
  - split.
    + destruct (handleContentChange_pending channelId user value st Hinv)
        as (k & Hr & Hp).
      split; rewrite Hp; [|simpl; lia].
      intros j t [[= <- <-]|[]]. split; [exact Hr | eauto].
    + intros c. unfold handleContentChange.
      destruct channelId as [c0|];
        [destruct (numTruthy (Some c0) && user)|]; simpl;
        intros H; repeat (destruct H as [H|H]; try discriminate H);
        try contradiction.
      injection H as _ Hlen. destruct value; [reflexivity|discriminate].
  - unfold fire. destruct (findTimer i (pending st)) as [t|] eqn:F.
    + simpl. apply findTimer_In in F. destruct Hinv as [Hall Hlen]. split.
      * split.
        -- intros j u Hin. apply filter_In in Hin. destruct Hin as [Hin _].
           exact (Hall j u Hin).
        -- eapply Nat.le_trans; [apply filter_length_le | exact Hlen].
      * intros c Hin. destruct (Hall i t F) as [_ (v & ->)]. simpl in Hin.
        now apply handleToneAnalysis_no_typing in Hin.
    + simpl. split; [exact Hinv | tauto].
Qed.

Lemma uiRun_cons (ev : UiEvent) (evs : list UiEvent) (st : Timers) :
  uiRun (ev :: evs) st =
  (fst (uiRun evs (fst (uiStep ev st))),
   snd (uiStep ev st) ++ snd (uiRun evs (fst (uiStep ev st)))).
Proof.
  simpl. destruct (uiStep ev st) as [s1 o1]. simpl.
  now destruct (uiRun evs s1).
Qed.

Lemma uiRun_inv (evs : list UiEvent) (st : Timers) :
  timersInv st ->
  timersInv (fst (uiRun evs st)) /\
  (forall c, In (SendTyping c false) (snd (uiRun evs st)) ->
             existsb emptied evs = true).
Proof.
  revert st. induction evs as [|ev rest IH]; intros st Hinv.
  - simpl. split; [exact Hinv | tauto].
  - rewrite uiRun_cons. simpl fst. simpl snd.
    destruct (uiStep_inv ev st Hinv) as [Hinv1 Hout1].
    destruct (IH _ Hinv1) as [Hinv2 Hout2]. split; [exact Hinv2|].
    intros c Hin. apply in_app_iff in Hin. simpl.
    destruct Hin as [Hin|Hin].
    + now rewrite (Hout1 c Hin).
    + rewrite (Hout2 c Hin). apply orb_true_r.
Qed.

End TypingTimers.

(** X20: in [MessageInput] the one-second stop-typing timeout never fires:
    [handleContentChange] cancels it in the same call that sets it, because
    the tone-analysis debounce reuses [typingTimeoutRef].  Whatever the
    user types and whenever timers fire, the component has at most one
    pending timer, a tone analysis after 500 ms, and [sendTyping(_, false)]
    is only ever called by a change that empties the input. *)
Theorem stop_typing_timeout_never_fires (evs : list Client.UiEvent) :
  let st := fst (Client.uiRun evs Client.initialTimers) in
  let out := snd (Client.uiRun evs Client.initialTimers) in
  List.length (Client.pending st) <= 1 /\
  Forall (fun e => exists value,
            snd e = Client.mkTimer (Client.DebouncedTone value) 500)
         (Client.pending st) /\
  (existsb Client.emptied evs = false ->
   forall c, ~ In (Client.SendTyping c false) out).
Proof.
  cbv zeta.
  destruct (uiRun_inv evs Client.initialTimers timersInv_initial)
    as [[Hall Hlen] Hout].
  split; [exact Hlen|]. split.
  - apply Forall_forall. intros [i t] Hin.
    destruct (Hall i t Hin) as [_ H]. exact H.
  - intros Hno c Hin. rewrite (Hout c Hin) in Hno. discriminate.
Qed.

Lemma stop_typing_timeout_never_fires_witness :
  let evs := [ Client.Change (Some 10%Z) true [104%N];
               Client.Fire 1; Client.Fire 2;
               Client.Change (Some 10%Z) true [104%N; 105%N];
               Client.Fire 3; Client.Fire 4 ] in
  existsb Client.emptied evs = false /\
  forall c,
    ~ In (Client.SendTyping c false)
         (snd (Client.uiRun evs Client.initialTimers)).
Proof.
  cbv zeta. split; [reflexivity|].
  exact (proj2 (proj2 (stop_typing_timeout_never_fires
    [ Client.Change (Some 10%Z) true [104%N];
      Client.Fire 1; Client.Fire 2;
      Client.Change (Some 10%Z) true [104%N; 105%N];
      Client.Fire 3; Client.Fire 4 ])) eq_refl).
Defined.

Section SendingAndAsking.

Import Client.

Lemma orUndefined_not_zero (n : option Z) : orUndefined n <> Some 0%Z.
Proof.
  unfold orUndefined, numTruthy. destruct n as [z|]; [|discriminate].
  destruct (Z.eqb_spec z 0); simpl; [discriminate | congruence].
Qed.

Lemma split_first_line (s : JsString) :
  exists first lines,
    split s = first :: lines /\ ~ In 10%N first /\
    (s = first \/ exists rest, s = first ++ 10%N :: rest).
Proof.
  induction s as [|c rest (first & lines & Hs & Hno & Hshape)]; simpl.
  - exists [], []. simpl. tauto.
  - destruct (N.eqb_spec c 10) as [->|Hc].
    + exists [], (split rest). simpl. split; [reflexivity|].
      split; [tauto|]. right. now exists rest.
    + rewrite Hs. exists (c :: first), lines. split; [reflexivity|].
      split.
      * simpl. intros [H|H]; [congruence | contradiction].
      * destruct Hshape as [->|(r & ->)]; [now left|].
        right. now exists r.
Qed.

(** X21: a key press in [MessageInput] submits a message only if it is
    Enter without Shift while no submission is pending, and the content
    submitted is the trimmed input: it is not empty, neither starts nor
    ends with a white-space code unit, and trimming it again changes
    nothing; a channel or recipient id of [0] is submitted as [undefined].
    Conversely Enter without Shift does submit whenever nothing is pending
    and the input has a code unit that is not white space. *)
Theorem key_press_submits_trimmed (isEnter shiftKey : bool)
    (content : JsString) (isPending : bool)
    (channelId recipientId : option Z) :
  (forall d,
     In (SendMutate d)
        (handleKeyPress isEnter shiftKey content isPending channelId
                        recipientId) ->
     isEnter = true /\ shiftKey = false /\ isPending = false /\
     mdContent d = trim content /\ mdContent d <> [] /\
     trim (mdContent d) = mdContent d /\
     (forall c, hd_error (mdContent d) = Some c -> isWhiteSpace c = false) /\
     (forall c, hd_error (rev (mdContent d)) = Some c ->
                isWhiteSpace c = false) /\
     mdChannelId d <> Some 0%Z /\ mdRecipientId d <> Some 0%Z) /\
  (isEnter = true -> shiftKey = false -> isPending = false ->
   forallb isWhiteSpace content = false ->
   handleKeyPress isEnter shiftKey content isPending channelId recipientId
   = [PreventDefault;
      SendMutate {| mdContent := trim content;
                    mdChannelId := orUndefined channelId;
                    mdRecipientId := orUndefined recipientId |}]).
Proof.
  unfold handleKeyPress, handleSend. fold (blank content).
  rewrite blank_iff. split.
  - intros d Hin.
    destruct isEnter, shiftKey; simpl in Hin; try contradiction.
    destruct Hin as [Hin|Hin]; [discriminate|].
    destruct (forallb isWhiteSpace content) eqn:E; [contradiction|].
    destruct isPending; simpl in Hin; [contradiction|].
    destruct Hin as [[= <-]|[]]. simpl.
    repeat split; try apply orUndefined_not_zero;
      try apply trim_idem; try apply trim_first_last.
    intros H. apply trim_nil_iff in H. congruence.
  - intros -> -> -> E. now rewrite E.
Qed.

Lemma key_press_submits_trimmed_witness :
  handleKeyPress true false [32; 104; 105; 10]%N false (Some 0%Z) None
  = [PreventDefault;
     SendMutate {| mdContent := [104; 105]%N;
                   mdChannelId := None;
                   mdRecipientId := None |}].
Proof.
  exact (proj2 (key_press_submits_trimmed true false [32; 104; 105; 10]%N
                  false (Some 0%Z) None)
               eq_refl eq_refl eq_refl eq_refl).
Defined.

(** X22: [handleReplyGeneration] of [AiModal] never shows the "Invalid
    Context" toast, since [split] returns at least one piece.  For a
    context of white space only it asks for context; otherwise it requests
    a reply for the first line of the context, the text before the first
    line feed, together with the whole context. *)
Theorem reply_generation_uses_first_line (replyContext : JsString) :
  ~ In (Toast "Invalid Context") (handleReplyGeneration replyContext) /\
  (forallb isWhiteSpace replyContext = true ->
   handleReplyGeneration replyContext = [Toast "Context Required"]) /\
  (forallb isWhiteSpace replyContext = false ->
   exists first,
     handleReplyGeneration replyContext = [ReplyMutate first replyContext] /\
     ~ In 10%N first /\
     (replyContext = first \/
      exists rest, replyContext = first ++ 10%N :: rest)).
Proof.
  unfold handleReplyGeneration. rewrite blank_iff.
  destruct (split_first_line replyContext)
    as (first & lines & Hs & Hno & Hshape).
  rewrite Hs. simpl.
  destruct (forallb isWhiteSpace replyContext); repeat split;
    try discriminate.
  - intros [H|[]]. discriminate.
  - intros [H|[]]. discriminate.
  - intros _. now exists first.
Qed.

Lemma reply_generation_uses_first_line_witness :
  forallb isWhiteSpace [104; 10; 105]%N = false /\
  exists first,
    handleReplyGeneration [104; 10; 105]%N
    = [ReplyMutate first [104; 10; 105]%N] /\ ~ In 10%N first.
Proof.
  split; [reflexivity|].
  destruct (proj2 (proj2
    (reply_generation_uses_first_line [104; 10; 105]%N)) eq_refl)
    as (first & H1 & H2 & _).
  now exists first.
Defined.

(** X23: the tone and organisational-memory handlers of [AiModal] issue a
    request exactly when the input has a code unit that is not white
    space, and then send the input as typed, untrimmed; otherwise they
    only show their toast. *)
Theorem modal_requests_need_text (text : JsString) :
  modalToneAnalysis text =
    (if forallb isWhiteSpace text then [Toast "Input Required"]
     else [ToneMutate text]) /\
  handleOrgMemoryQuery text =
    (if forallb isWhiteSpace text then [Toast "Query Required"]
     else [OrgMemoryMutate text]).
Proof.
  unfold modalToneAnalysis, handleOrgMemoryQuery.
  now rewrite blank_iff.
Qed.

End SendingAndAsking.

(** X24: only [new_message] and [typing] frames cause writes: a frame of
    any other type, known or not, is written to no socket. *)
Theorem only_broadcasts_write (readyState : WebSocket -> ReadyState)
    (ws : WebSocket) (message : json) (clients : Clients) :
  broadcastFrame message = None ->
  recipients (snd (onMessage readyState ws (Parsed message) clients)) = [].
Proof.
  unfold broadcastFrame. intros Hb.
  destruct (strictEqStr (prop message "type") "new_message") eqn:En;
    [discriminate|].
  destruct (strictEqStr (prop message "type") "typing") eqn:Et;
    [discriminate|].
  unfold onMessage, tryBody. destruct message; simpl; try reflexivity.
  simpl in En, Et. rewrite En, Et.
  repeat match goal with
  | |- context [if strictEqStr ?v ?l then _ else _] =>
      destruct (strictEqStr v l)
  end; try reflexivity; now destruct (JsMap.get ws clients).
Qed.

Lemma only_broadcasts_write_witness :
  broadcastFrame (joinMsg 10) = None /\
  recipients (snd (onMessage allOpen 1 (Parsed (joinMsg 10)) threeClients))
  = [].
Proof.
  split; [reflexivity|].
  exact (only_broadcasts_write allOpen 1 (joinMsg 10) threeClients eq_refl).
Defined.
